(** * oec: the bootstrap and dispatch logic of [oec/__main__.py]

    A shallow embedding of the entry point of the IBM 3270 terminal
    controller: keymap selection, encoding validation, device
    identification, session dispatch, the [host:port] address parser and
    the signal-driven stop of the controller.

    Python text is modelled as [string]; a character is a code point in
    the range 0..255.  Python integers are unbounded, hence [Z].  Effects
    (log records, queries sent to the terminal, objects constructed, the
    module global [CONTROLLER], raised exceptions) are threaded through a
    small state-and-exception monad whose state survives a raise. *)

From Stdlib Require Import String Ascii List ZArith Bool Arith Lia.
Import ListNotations.

Local Open Scope list_scope.
Local Open Scope string_scope.

(** ** Python string primitives used by the module *)

Module PyStr.

(** [c in s] for a one-character [c]. *)
Fixpoint contains (c : ascii) (s : string) : bool :=
  match s with
  | EmptyString => false
  | String a s' => if Ascii.eqb a c then true else contains c s'
  end.

(** [s.startswith(p)]. *)
Fixpoint startswith (s p : string) {struct p} : bool :=
  match p with
  | EmptyString => true
  | String b p' =>
      match s with
      | EmptyString => false
      | String a s' => if Ascii.eqb a b then startswith s' p' else false
      end
  end.

(** [s.split(sep, maxsplit)] for a one-character separator; [None] is
    Python's [maxsplit=-1] (no limit).  Pieces are cut left to right and
    the remainder is kept whole once [maxsplit] cuts were made. *)
Fixpoint split (sep : ascii) (maxsplit : option nat) (s : string) : list string :=
  match maxsplit with
  | Some O => [s]
  | _ =>
      match s with
      | EmptyString => [EmptyString]
      | String a s' =>
          if Ascii.eqb a sep
          then EmptyString :: split sep (option_map Nat.pred maxsplit) s'
          else match split sep maxsplit s' with
               | piece :: rest => String a piece :: rest
               | [] => [String a EmptyString]
               end
      end
  end.

(** [s[::-1]]. *)
Fixpoint reverse (s : string) : string :=
  match s with
  | EmptyString => EmptyString
  | String a s' => reverse s' ++ String a EmptyString
  end.

(** [s.rsplit(sep, maxsplit)]: the cuts are made right to left, which is
    [split] on the mirror image, mirrored back. *)
Definition rsplit (sep : ascii) (maxsplit : option nat) (s : string) : list string :=
  rev (map reverse (split sep maxsplit (reverse s))).

(** Whitespace skipped by [int()] around the number: TAB, LF, VT, FF, CR,
    space, and the two blanks of the 128..255 range, NEL and NBSP. *)
Definition is_space (c : ascii) : bool :=
  let n := nat_of_ascii c in
  (((9 <=? n) && (n <=? 13)) || (n =? 32) || (n =? 133) || (n =? 160))%nat.

Definition is_digit (c : ascii) : bool :=
  let n := nat_of_ascii c in ((48 <=? n) && (n <=? 57))%nat.

Definition digit_value (c : ascii) : Z := Z.of_nat (nat_of_ascii c) - 48.

Fixpoint skip_spaces (s : string) : string :=
  match s with
  | String a s' => if is_space a then skip_spaces s' else s
  | EmptyString => EmptyString
  end.

Definition underscore : ascii := "_"%char.

(** The digit scanner of [int()]: decimal digits with single underscores
    between them; [prev] is the character read last, [digits] counts the
    digits read.  It stops at the first other character and fails on a
    doubled or trailing underscore. *)
Fixpoint scan_digits (prev : ascii) (digits : nat) (acc : Z) (s : string)
  : option (Z * nat * string) :=
  match s with
  | String c s' =>
      if is_digit c then scan_digits c (S digits) (acc * 10 + digit_value c) s'
      else if Ascii.eqb c underscore then
        if Ascii.eqb prev underscore then None
        else scan_digits c digits acc s'
      else if Ascii.eqb prev underscore then None
      else Some (acc, digits, s)
  | EmptyString =>
      if Ascii.eqb prev underscore then None else Some (acc, digits, s)
  end.

(** The most digits [int()] and [str()] convert
    ([sys.int_max_str_digits], as the interpreter starts). *)
Definition max_str_digits : nat := 4300.

(** [int(s)] in base 10: [None] stands for [ValueError].  Surrounding
    whitespace, one optional sign, at least one digit and no more than
    [max_str_digits] of them, leading zeros counted, no leading
    underscore, nothing after the trailing whitespace. *)
Definition int (s : string) : option Z :=
  let s1 := skip_spaces s in
  let '(sign, s2) :=
    match s1 with
    | String c r =>
        if Ascii.eqb c "+"%char then (1%Z, r)
        else if Ascii.eqb c "-"%char then ((-1)%Z, r)
        else (1%Z, s1)
    | EmptyString => (1%Z, s1)
    end in
  if startswith s2 "_" then None
  else
    match scan_digits Ascii.zero 0 0%Z s2 with
    | None => None
    | Some (n, digits, rest) =>
        if (digits =? 0)%nat then None
        else if (max_str_digits <? digits)%nat then None
        else match skip_spaces rest with
             | EmptyString => Some (sign * n)%Z
             | String _ _ => None
             end
    end.

(** [l[i]] with Python's negative indices; [None] stands for
    [IndexError]. *)
Definition getitem {A} (l : list A) (i : Z) : option A :=
  let n := Z.of_nat (List.length l) in
  let j := if (i <? 0)%Z then (n + i)%Z else i in
  if ((0 <=? j) && (j <? n))%Z then nth_error l (Z.to_nat j) else None.

End PyStr.


(** ** Exceptions *)

Inductive ExnClass :=
| ValueError
| LookupError
| IndexError
| AttributeError
| ArgumentTypeError        (* argparse.ArgumentTypeError *)
| UnsupportedDeviceError   (* oec.device.UnsupportedDeviceError *)
| SystemExit               (* raised by [parser.error] *)
| OtherError.              (* whatever else a collaborator raises *)

Definition ExnClass_eqb (a b : ExnClass) : bool :=
  match a, b with
  | ValueError, ValueError | LookupError, LookupError
  | IndexError, IndexError | AttributeError, AttributeError
  | ArgumentTypeError, ArgumentTypeError
  | UnsupportedDeviceError, UnsupportedDeviceError
  | SystemExit, SystemExit | OtherError, OtherError => true
  | _, _ => false
  end.

(** [issubclass(a, b)] on the classes above: [IndexError] derives from
    [LookupError], every class derives from itself. *)
Definition issubclass (a b : ExnClass) : bool :=
  match a, b with
  | IndexError, LookupError => true
  | _, _ => ExnClass_eqb a b
  end.

Record exn := Exn { exn_class : ExnClass; exn_message : string }.

(** ** Objects of the collaborating modules *)

(** Modelled from the spec: [coax.TerminalType], the tag carried by a
    terminal identifier; [CUT] is the one supported variant, [DFT] the
    other one. *)
Inductive TerminalType := CUT | DFT.

Definition TerminalType_eqb (a b : TerminalType) : bool :=
  match a, b with
  | CUT, CUT | DFT, DFT => true
  | _, _ => false
  end.

(** Modelled from the spec: the identifier read from the device, opaque
    but for its [type] tag. *)
Record TerminalId := { type : TerminalType; terminal_id_value : Z }.

(** The extended identifier is text (the module slices it as [[2:6]]). *)
Definition ExtendedId := string.

(** Handles of objects the module only passes around. *)
Record Interface := { interface_handle : nat }.
Record DeviceAddress := { device_address_value : nat }.
Record PollResponse := { poll_response_handle : nat }.
Record Features := { features_handle : nat }.
Record Controller := { controller_handle : nat }.

(** The three keymap tables imported by the module. *)
Inductive Keymap :=
| KEYMAP_3278_TYPEWRITER
| KEYMAP_IBM_TYPEWRITER
| KEYMAP_IBM_ENHANCED.

(** [Terminal(interface, device_address, terminal_id, extended_id,
    features, keymap)]. *)
Record Terminal := {
  terminal_interface : Interface;
  terminal_device_address : DeviceAddress;
  terminal_terminal_id : TerminalId;
  terminal_extended_id : option ExtendedId;
  terminal_features : Features;
  terminal_keymap : Keymap
}.

(** The two session classes, with their constructor arguments. *)
Inductive Session :=
| TN3270Session (device : Terminal) (host : string) (port : option Z)
                (device_names : option (list string))
                (character_encoding : string)
| VT100Session (device : Terminal) (host_command : list string).

(** The [argparse] namespace.  [port] is the optional legacy positional
    ([nargs='?'], [type=int]); [device_names] is filled in by [main]. *)
Record Args := {
  serial_port : string;
  emulator : string;
  host : string;
  port : option Z;
  device_names : option (list string);
  character_encoding : string;
  command : string;
  command_args : list string
}.

(** ** Effects *)

Inductive Level := INFO | WARNING.

Inductive Event :=
| Log (level : Level) (message : string)   (* a record of logger 'oec.main' *)
| GetIds (interface : Interface) (device_address : DeviceAddress)
| GetFeatures (interface : Interface) (device_address : DeviceAddress)
| NewTerminal (terminal : Terminal)
| NewSession (session : Session)
| Stop (controller : Controller)
| Run (controller : Controller).

(** The state of the process: the module global [CONTROLLER] and what
    happened so far, oldest first. *)
Record World := { CONTROLLER : option Controller; events : list Event }.

(** Line 30: [CONTROLLER = None]. *)
Definition initial_world : World := {| CONTROLLER := None; events := [] |}.

(** The number of [stop] calls among some events. *)
Fixpoint stop_count (l : list Event) : nat :=
  match l with
  | [] => 0
  | Stop _ :: l' => S (stop_count l')
  | _ :: l' => stop_count l'
  end.

Inductive Result (A : Type) :=
| Return (a : A)
| Raise (e : exn).
Arguments Return {A} a.
Arguments Raise {A} e.

Definition M (A : Type) : Type := World -> Result A * World.

Definition ret {A} (a : A) : M A := fun w => (Return a, w).

Definition bind {A B} (c : M A) (k : A -> M B) : M B :=
  fun w =>
    match c w with
    | (Return a, w') => k a w'
    | (Raise e, w') => (Raise e, w')
    end.

Definition raise {A} (cls : ExnClass) (message : string) : M A :=
  fun w => (Raise (Exn cls message), w).

(** [try: c  except cls: handler]: an exception of another class
    propagates. *)
Definition try_except {A} (c : M A) (cls : ExnClass) (handler : exn -> M A) : M A :=
  fun w =>
    match c w with
    | (Return a, w') => (Return a, w')
    | (Raise e, w') =>
        if issubclass (exn_class e) cls then handler e w' else (Raise e, w')
    end.

Definition emit (e : Event) : M unit :=
  fun w => (Return tt, {| CONTROLLER := CONTROLLER w; events := events w ++ [e] |}).

Definition load_CONTROLLER : M (option Controller) :=
  fun w => (Return (CONTROLLER w), w).

Definition store_CONTROLLER (c : option Controller) : M unit :=
  fun w => (Return tt, {| CONTROLLER := c; events := events w |}).

Declare Scope py_scope.
Delimit Scope py_scope with py.
Notation "x <- c ;; k" := (bind c (fun x => k))
  (at level 61, c at next level, right associativity) : py_scope.
Notation "c ;; k" := (bind c (fun _ => k))
  (at level 61, right associativity) : py_scope.
Local Open Scope py_scope.

Definition logger_info (message : string) : M unit := emit (Log INFO message).
Definition logger_warning (message : string) : M unit := emit (Log WARNING message).

(** [int(s)] as a statement. *)
Definition int (s : string) : M Z :=
  match PyStr.int s with
  | Some n => ret n
  | None => raise ValueError "invalid literal for int() with base 10"
  end.

(** [l[i]] as a statement. *)
Definition getitem {A} (l : list A) (i : Z) : M A :=
  match PyStr.getitem l i with
  | Some a => ret a
  | None => raise IndexError "list index out of range"
  end.

(** An [argparse.ArgumentParser]. *)
Record ArgumentParser := { parser_description : string }.

(** [parser.error(message)]: [argparse] prints the usage and the message
    and leaves the program with status 2; nothing after the call runs. *)
Definition parser_error {A} (parser : ArgumentParser) (message : string) : M A :=
  raise SystemExit message.

(** What the module takes from outside: the answers of the attached
    terminal, helpers of [oec.device], the text of the objects it logs,
    the codec registry and the platform. *)
Class Externals := {
  (** the outcome of [get_ids(interface, device_address)] *)
  get_ids_reply : Interface -> DeviceAddress ->
                  exn + (TerminalId * option ExtendedId);
  (** the outcome of [get_features(interface, device_address)] *)
  get_features_reply : Interface -> DeviceAddress -> exn + Features;
  get_keyboard_description : TerminalId -> option ExtendedId -> string;
  str_terminal_id : TerminalId -> string;
  str_features : Features -> string;
  keymap_name : Keymap -> string;
  (** [codecs.lookup(name)]: [None] when a codec is found, else the
      exception raised *)
  codecs_lookup_reply : string -> option exn;
  (** [os.name] *)
  os_name : string
}.

Section Program.

Context {ext : Externals}.

(** Lines 15-20: VT100 emulation exists on POSIX only. *)
Definition IS_VT100_AVAILABLE : bool := String.eqb os_name "posix".

Definition get_ids (interface : Interface) (device_address : DeviceAddress)
  : M (TerminalId * option ExtendedId) :=
  emit (GetIds interface device_address) ;;
  match get_ids_reply interface device_address with
  | inr ids => ret ids
  | inl e => raise (exn_class e) (exn_message e)
  end.

Definition get_features (interface : Interface) (device_address : DeviceAddress)
  : M Features :=
  emit (GetFeatures interface device_address) ;;
  match get_features_reply interface device_address with
  | inr features => ret features
  | inl e => raise (exn_class e) (exn_message e)
  end.

Definition codecs_lookup (encoding : string) : M unit :=
  match codecs_lookup_reply encoding with
  | None => ret tt
  | Some e => raise (exn_class e) (exn_message e)
  end.

(** Modelled from the spec: [Controller.stop()], which cancels the run
    loop and is safe to call at any time; it returns normally. *)
Definition controller_stop (c : Controller) : M unit := emit (Stop c).

(** [f'{extended_id}'] *)
Definition str_extended_id (extended_id : option ExtendedId) : string :=
  match extended_id with
  | Some e => e
  | None => "None"
  end.

(** Lines 32-40. *)
Definition _get_keymap (keyboard_description : string) : Keymap :=
  if PyStr.startswith keyboard_description "3278" then KEYMAP_3278_TYPEWRITER
  else if PyStr.startswith keyboard_description "IBM-TYPEWRITER" then KEYMAP_IBM_TYPEWRITER
  else if PyStr.startswith keyboard_description "IBM-ENHANCED" then KEYMAP_IBM_ENHANCED
  else KEYMAP_3278_TYPEWRITER.

(** Lines 42-48. *)
Definition _get_character_encoding (encoding : string) : M string :=
  try_except (codecs_lookup encoding) LookupError
    (fun _ => raise ArgumentTypeError ("invalid encoding: " ++ encoding)) ;;
  ret encoding.

(** Lines 50-81. *)
Definition _create_device (args : Args) (interface : Interface)
    (device_address : DeviceAddress) (poll_response : PollResponse)
  : M Terminal :=
  ids <- get_ids interface device_address ;;
  let '(terminal_id, extended_id) := ids in
  logger_info ("Terminal ID = " ++ str_terminal_id terminal_id) ;;
  if negb (TerminalType_eqb (type terminal_id) CUT) then
    raise UnsupportedDeviceError "Only CUT type terminals are supported"
  else
    logger_info ("Extended ID = " ++ str_extended_id extended_id) ;;
    match extended_id with
    | Some e => logger_info ("Model = IBM " ++ substring 2 4 e ++ " or equivalent")
    | None => ret tt
    end ;;
    let keyboard_description := get_keyboard_description terminal_id extended_id in
    logger_info ("Keyboard = " ++ keyboard_description) ;;
    features <- get_features interface device_address ;;
    logger_info ("Features = " ++ str_features features) ;;
    let keymap := _get_keymap keyboard_description in
    logger_info ("Keymap = " ++ keymap_name keymap) ;;
    let terminal := {| terminal_interface := interface;
                       terminal_device_address := device_address;
                       terminal_terminal_id := terminal_id;
                       terminal_extended_id := extended_id;
                       terminal_features := features;
                       terminal_keymap := keymap |} in
    emit (NewTerminal terminal) ;;
    ret terminal.

(** Lines 83-92. *)
Definition _create_session (args : Args) (device : Terminal) : M Session :=
  if String.eqb (emulator args) "tn3270" then
    let session := TN3270Session device (host args) (port args)
                     (device_names args) (character_encoding args) in
    emit (NewSession session) ;;
    ret session
  else if String.eqb (emulator args) "vt100" && IS_VT100_AVAILABLE then
    let host_command := command args :: command_args args in
    let session := VT100Session device host_command in
    emit (NewSession session) ;;
    ret session
  else raise ValueError "Unsupported emulator".

(** Lines 94-124.  The result is [(host, port, device_names)]. *)
Definition parse_tn3270_host_args (args : Args) (parser : ArgumentParser)
  : M (string * Z * option (list string)) :=
  let elements := PyStr.rsplit ":" (Some 1%nat) (host args) in
  let port0 : option Z := None in
  port1 <- (if (1 <? List.length elements)%nat then
              try_except
                (token <- getitem elements 1 ;;
                 n <- int token ;;
                 ret (Some n))
                ValueError
                (fun _ =>
                   token <- getitem elements 1 ;;
                   parser_error parser ("argument host: invalid port value: " ++ token))
            else ret port0) ;;
  port2 <- match port args with
           | Some legacy =>
               match port1 with
               | None =>
                   logger_info "The port argument is deprecated and will be removed in the future, use host:port instead." ;;
                   ret (Some legacy)
               | Some _ =>
                   logger_warning "The port argument is deprecated and will be removed in the future, port from host:port is being used." ;;
                   ret port1
               end
           | None => ret port1
           end ;;
  let port3 : Z := match port2 with
                   | None => 23%Z
                   | Some p => p
                   end in
  first <- getitem elements 0 ;;
  let elements := PyStr.split "@" (Some 1%nat) first in
  host <- getitem elements (-1) ;;
  names <- (if (1 <? List.length elements)%nat then
              lus <- getitem elements 0 ;;
              ret (Some (PyStr.split "," None lus))
            else ret None) ;;
  ret (host, port3, names).

(** Lines 126-134.  A [Controller] is an ordinary object, hence true in
    a condition; [None] is false. *)
Definition _signal_handler (number : Z) (frame : unit) : M unit :=
  logger_info "Stopping controller..." ;;
  held <- load_CONTROLLER ;;
  match held with
  | Some _ =>
      target <- load_CONTROLLER ;;
      match target with
      | Some c => controller_stop c
      | None => raise AttributeError "'NoneType' object has no attribute 'stop'"
      end ;;
      store_CONTROLLER None
  | None => ret tt
  end.

End Program.

(** ** Signal delivery

    The handler is registered for SIGINT and SIGTERM (lines 136-137).
    Python runs a signal handler in the main thread, between two
    instructions of whatever that thread is executing: [main], or an
    earlier activation of the handler that has not returned yet.  The
    interrupted code resumes when the handler returns.

    The machine below executes lines 177-180 of [main] and the handler
    one step at a time.  A step is one access to the global or one call;
    line 132, [CONTROLLER.stop()], is two steps: the expression
    [CONTROLLER.stop] is evaluated, then the method is called. *)

Module Signals.

(** Where an activation of [_signal_handler] stands. *)
Inductive HandlerPc :=
| line_129                              (* logger.info(...) *)
| line_131                              (* if CONTROLLER: *)
| line_132_load                         (* evaluate CONTROLLER.stop *)
| line_132_call (target : Controller)   (* call the bound method *)
| line_134.                             (* CONTROLLER = None *)

(** Where [main] stands. *)
Inductive MainPc :=
| line_178_construct                    (* Controller(...) *)
| line_178_store (c : Controller)       (* CONTROLLER = <the new object> *)
| line_180_load                         (* evaluate CONTROLLER.run *)
| line_180_run (c : Controller).        (* inside run(), which blocks *)

Record Machine := {
  world : World;
  main_pc : MainPc;
  (** activations of the handler that have not returned, innermost first *)
  handlers : list HandlerPc;
  (** an exception that left the handler or [main] *)
  fault : option exn
}.

Inductive Action :=
| Deliver     (* a signal arrives: the handler is entered *)
| Tick.       (* the main thread executes its next step *)

Definition boot : Machine :=
  {| world := initial_world; main_pc := line_178_construct;
     handlers := []; fault := None |}.

Definition set_world (m : Machine) (w : World) : Machine :=
  {| world := w; main_pc := main_pc m; handlers := handlers m; fault := fault m |}.

Definition set_handlers (m : Machine) (hs : list HandlerPc) : Machine :=
  {| world := world m; main_pc := main_pc m; handlers := hs; fault := fault m |}.

Definition set_main_pc (m : Machine) (pc : MainPc) : Machine :=
  {| world := world m; main_pc := pc; handlers := handlers m; fault := fault m |}.

Definition set_fault (m : Machine) (e : exn) : Machine :=
  {| world := world m; main_pc := main_pc m; handlers := handlers m; fault := Some e |}.

Definition log_event (m : Machine) (e : Event) : Machine :=
  set_world m {| CONTROLLER := CONTROLLER (world m); events := events (world m) ++ [e] |}.

Definition store_global (m : Machine) (c : option Controller) : Machine :=
  set_world m {| CONTROLLER := c; events := events (world m) |}.

(** One step of the innermost handler activation [pc]; [outer] are the
    activations it interrupted. *)
Definition handler_step (m : Machine) (pc : HandlerPc) (outer : list HandlerPc) : Machine :=
  match pc with
  | line_129 =>
      set_handlers (log_event m (Log INFO "Stopping controller...")) (line_131 :: outer)
  | line_131 =>
      match CONTROLLER (world m) with
      | Some _ => set_handlers m (line_132_load :: outer)
      | None => set_handlers m outer
      end
  | line_132_load =>
      match CONTROLLER (world m) with
      | Some c => set_handlers m (line_132_call c :: outer)
      | None => set_fault m (Exn AttributeError "'NoneType' object has no attribute 'stop'")
      end
  | line_132_call c =>
      set_handlers (log_event m (Stop c)) (line_134 :: outer)
  | line_134 =>
      set_handlers (store_global m None) outer
  end.

(** One step of [main]; [new_controller] is the object that
    [Controller(...)] returns. *)
Definition main_step (new_controller : Controller) (m : Machine) : Machine :=
  match main_pc m with
  | line_178_construct => set_main_pc m (line_178_store new_controller)
  | line_178_store c => set_main_pc (store_global m (Some c)) line_180_load
  | line_180_load =>
      match CONTROLLER (world m) with
      | Some c => set_main_pc (log_event m (Run c)) (line_180_run c)
      | None => set_fault m (Exn AttributeError "'NoneType' object has no attribute 'run'")
      end
  | line_180_run c => m
  end.

(** After an uncaught exception the process is gone: nothing happens. *)
Definition step (new_controller : Controller) (a : Action) (m : Machine) : Machine :=
  match fault m with
  | Some _ => m
  | None =>
      match a with
      | Deliver => set_handlers m (line_129 :: handlers m)
      | Tick =>
          match handlers m with
          | pc :: outer => handler_step m pc outer
          | [] => main_step new_controller m
          end
      end
  end.

Fixpoint run_schedule (new_controller : Controller) (schedule : list Action)
    (m : Machine) : Machine :=
  match schedule with
  | [] => m
  | a :: rest => run_schedule new_controller rest (step new_controller a m)
  end.

(** No signal arrives while an activation of the handler is in progress:
    every [Deliver] of the schedule finds no activation pending. *)
Fixpoint one_at_a_time (new_controller : Controller) (schedule : list Action)
    (m : Machine) : bool :=
  match schedule with
  | [] => true
  | a :: rest =>
      match a, handlers m with
      | Deliver, _ :: _ => false
      | _, _ => one_at_a_time new_controller rest (step new_controller a m)
      end
  end.

(** The activations that have not called [stop] yet. *)
Fixpoint pending (hs : list HandlerPc) : nat :=
  match hs with
  | [] => 0
  | line_134 :: hs' => pending hs'
  | _ :: hs' => S (pending hs')
  end.

(** [main] has stored the controller in the global. *)
Definition published (m : Machine) : bool :=
  match main_pc m with
  | line_180_load | line_180_run _ => true
  | line_178_construct | line_178_store _ => false
  end.

(** [main] runs up to [run()]; a first signal arrives and its handler
    has evaluated [CONTROLLER.stop] when a second signal arrives; the
    second handler runs to its end, then the first one resumes. *)
Definition nested_schedule : list Action :=
  [Tick; Tick; Tick;
   Deliver; Tick; Tick; Tick;
   Deliver; Tick; Tick; Tick; Tick; Tick;
   Tick; Tick].

(** As before, but the second signal arrives right after the first
    handler has tested [CONTROLLER]. *)
Definition stale_schedule : list Action :=
  [Tick; Tick; Tick;
   Deliver; Tick; Tick;
   Deliver; Tick; Tick; Tick; Tick; Tick;
   Tick].

(** Invariants of the machine, for the controller [c] of [main]. *)

(** [stop] was called on [c] only. *)
Definition only_stops (c : Controller) (l : list Event) : Prop :=
  forall x, In (Stop x) l -> x = c.

(** No controller but [c] is in the global, about to be stored or about
    to be stopped, or was stopped. *)
Definition own (c : Controller) (m : Machine) : Prop :=
  (forall x, CONTROLLER (world m) = Some x -> x = c)
  /\ (forall x, In (line_132_call x) (handlers m) -> x = c)
  /\ (forall x, main_pc m = line_178_store x -> x = c)
  /\ only_stops c (events (world m)).

(** No activation is on its way to [stop], and [stop] was called at
    most once, after which the global stays cleared. *)
Definition quiet (m : Machine) : Prop :=
  (stop_count (events (world m)) = 0
   /\ (published m = true \/ CONTROLLER (world m) = None))
  \/ (stop_count (events (world m)) = 1
      /\ published m = true /\ CONTROLLER (world m) = None).

(** At most one activation is in progress; [stop] was not called before
    it reaches line 134 and was called once when it is there. *)
Definition serial (m : Machine) : Prop :=
  match handlers m with
  | [] | [line_129] | [line_131] => quiet m
  | [line_132_load] | [line_132_call _] =>
      published m = true /\ stop_count (events (world m)) = 0
  | [line_134] =>
      published m = true /\ stop_count (events (world m)) = 1
  | _ :: _ :: _ => False
  end.

(** The number of signals in a schedule. *)
Definition deliveries (schedule : list Action) : nat :=
  List.length (filter (fun a => match a with Deliver => true | Tick => false end) schedule).

End Signals.

(** ** The grammar [[lu[,lu...]@]host[:port]] in the spec's words *)

(** [s] cut at the last occurrence of [c]: the text before it, and the
    text after it when [c] occurs at all. *)
Inductive cut_at_last (c : ascii) (s : string) : string -> option string -> Prop :=
| cut_last_found (before after : string) :
    s = before ++ String c after ->
    PyStr.contains c after = false ->
    cut_at_last c s before (Some after)
| cut_last_absent :
    PyStr.contains c s = false ->
    cut_at_last c s s None.

(** [s] cut at the first occurrence of [c]: the text before it when [c]
    occurs at all, and the text after it. *)
Inductive cut_at_first (c : ascii) (s : string) : option string -> string -> Prop :=
| cut_first_found (before after : string) :
    s = before ++ String c after ->
    PyStr.contains c before = false ->
    cut_at_first c s (Some before) after
| cut_first_absent :
    PyStr.contains c s = false ->
    cut_at_first c s None s.

(** The world after some more events. *)
Definition after (w : World) (new : list Event) : World :=
  {| CONTROLLER := CONTROLLER w; events := events w ++ new |}.

(** The two deprecation notices of the address parser. *)
Definition notice_use_host_port : Event :=
  Log INFO "The port argument is deprecated and will be removed in the future, use host:port instead.".
Definition notice_embedded_used : Event :=
  Log WARNING "The port argument is deprecated and will be removed in the future, port from host:port is being used.".

(** A character that [int()] accepts nowhere in its argument: neither
    blank, digit, underscore nor sign. *)
Definition foreign_to_int (c : ascii) : bool :=
  negb (PyStr.is_space c || PyStr.is_digit c || Ascii.eqb c PyStr.underscore
        || Ascii.eqb c "+" || Ascii.eqb c "-").

(** The port the parser settles on, from the embedded and the legacy
    one. *)
Definition resolved_port (embedded legacy : option Z) : Z :=
  match embedded, legacy with
  | Some p, _ => p
  | None, Some q => q
  | None, None => 23%Z
  end.

(** The notices that go with it. *)
Definition notices (embedded legacy : option Z) : list Event :=
  match legacy, embedded with
  | Some _, None => [notice_use_host_port]
  | Some _, Some _ => [notice_embedded_used]
  | None, _ => []
  end.

(** ** Concrete inputs for the examples *)

(** The namespace of [oec <serial_port> tn3270 <host> [<port>]]. *)
Definition tn3270_args (target : string) (legacy : option Z) : Args :=
  {| serial_port := "/dev/ttyACM0"; emulator := "tn3270";
     host := target; port := legacy; device_names := None;
     character_encoding := "ibm037"; command := EmptyString; command_args := [] |}.

(** The namespace of [oec <serial_port> vt100 <command> <args...>]. *)
Definition vt100_args (cmd : string) (cmd_args : list string) : Args :=
  {| serial_port := "/dev/ttyACM0"; emulator := "vt100";
     host := EmptyString; port := None; device_names := None;
     character_encoding := EmptyString; command := cmd; command_args := cmd_args |}.

(** An environment: a platform named [os] with one attached terminal of
    type [kind], and a codec registry that knows the code page 037 under
    its two names. *)
Definition example_externals (os : string) (kind : TerminalType) : Externals :=
  {| get_ids_reply := fun _ _ =>
       inr ({| type := kind; terminal_id_value := 4 |}, Some "c1348300");
     get_features_reply := fun _ _ => inr {| features_handle := 0 |};
     get_keyboard_description := fun _ _ => "IBM-TYPEWRITER";
     str_terminal_id := fun _ => "<TerminalId>";
     str_features := fun _ => "{}";
     keymap_name := fun k =>
       match k with
       | KEYMAP_3278_TYPEWRITER => "3278 Typewriter"
       | KEYMAP_IBM_TYPEWRITER => "IBM Typewriter"
       | KEYMAP_IBM_ENHANCED => "IBM Enhanced"
       end;
     codecs_lookup_reply := fun name =>
       if String.eqb name "ibm037" || String.eqb name "cp037" then None
       else Some (Exn LookupError ("unknown encoding: " ++ name));
     os_name := os |}.

(** An environment whose codec lookup, like the interpreter's, refuses
    a name that holds a NUL character with [ValueError] before it
    searches the registry; for the rest it is [example_externals]. *)
Definition nul_checking_externals : Externals :=
  {| get_ids_reply := @get_ids_reply (example_externals "posix" CUT);
     get_features_reply := @get_features_reply (example_externals "posix" CUT);
     get_keyboard_description :=
       @get_keyboard_description (example_externals "posix" CUT);
     str_terminal_id := @str_terminal_id (example_externals "posix" CUT);
     str_features := @str_features (example_externals "posix" CUT);
     keymap_name := @keymap_name (example_externals "posix" CUT);
     codecs_lookup_reply := fun name =>
       if PyStr.contains Ascii.zero name
       then Some (Exn ValueError "embedded null character")
       else @codecs_lookup_reply (example_externals "posix" CUT) name;
     os_name := "posix" |}.

(** The one-character text of the NUL character. *)
Definition nul_name : string := String Ascii.zero EmptyString.

(** ['0' * k]. *)
Fixpoint zeros (k : nat) : string :=
  match k with
  | O => EmptyString
  | S k' => String "0" (zeros k')
  end.

Definition example_interface : Interface := {| interface_handle := 0 |}.
Definition example_address : DeviceAddress := {| device_address_value := 0 |}.
Definition example_poll_response : PollResponse := {| poll_response_handle := 0 |}.
Definition example_controller : Controller := {| controller_handle := 1 |}.
Definition example_parser : ArgumentParser :=
  {| parser_description := "IBM 3270 terminal controller" |}.
Definition example_terminal : Terminal :=
  {| terminal_interface := example_interface;
     terminal_device_address := example_address;
     terminal_terminal_id := {| type := CUT; terminal_id_value := 4 |};
     terminal_extended_id := Some "c1348300";
     terminal_features := {| features_handle := 0 |};
     terminal_keymap := KEYMAP_IBM_TYPEWRITER |}.

(** The handler run once for each of the given signal numbers, one
    activation after the other, with no start of a controller in
    between. *)
Fixpoint handler_calls (signals : list Z) : M unit :=
  match signals with
  | [] => ret tt
  | number :: rest => _signal_handler number tt ;; handler_calls rest
  end.

Definition SIGINT : Z := 2.
Definition SIGTERM : Z := 15.

(** Validating a name, then validating what came back. *)
Definition validate_twice {ext : Externals} (encoding : string) : M string :=
  once <- _get_character_encoding encoding ;;
  _get_character_encoding once.

(** ** Addresses as the user writes them *)

Module PyInt.

(** The character of a decimal digit. *)
Definition digit_char (d : Z) : ascii := ascii_of_nat (48 + Z.to_nat d).

(** The decimal digits of [n >= 0], most significant first, put before
    [tail]; [fuel] bounds the number of digits. *)
Fixpoint to_digits (fuel : nat) (n : Z) (tail : string) : string :=
  match fuel with
  | O => tail
  | S fuel' =>
      let tail' := String (digit_char (n mod 10)) tail in
      if (n <? 10)%Z then tail' else to_digits fuel' (n / 10) tail'
  end.

(** The decimal digits of [n >= 0]: there are no more of them than
    bits. *)
Definition decimal_natural (n : Z) : string :=
  to_digits (S (Z.to_nat (Z.log2 n))) n EmptyString.

(** The decimal text of an integer [z]: what [str(z)] returns when it
    returns. *)
Definition decimal (z : Z) : string :=
  if (z <? 0)%Z then String "-" (decimal_natural (- z)) else decimal_natural z.

(** The number of decimal digits of [z]. *)
Definition digit_count (z : Z) : nat := String.length (decimal_natural (Z.abs z)).

(** [str(z)]: [None] stands for the [ValueError] raised for an integer
    of more than [max_str_digits] digits. *)
Definition str (z : Z) : option string :=
  if (PyStr.max_str_digits <? digit_count z)%nat then None else Some (decimal z).

End PyInt.

(** The text [[lu[,lu...]@]host[:port]] (line 152) for the given
    logical-unit names, host and port. *)
Definition address (names : option (list string)) (h : string) (p : option Z) : string :=
  match names with
  | Some l => String.concat "," l ++ "@"
  | None => EmptyString
  end
  ++ h
  ++ match p with
     | Some n => ":" ++ PyInt.decimal n
     | None => EmptyString
     end.

(** No text of the list holds the character. *)
Definition free_of (c : ascii) (l : list string) : bool :=
  forallb (fun name => negb (PyStr.contains c name)) l.

(** What [address] needs to be read back: names free of [,] and [@] and
    at least one of them; without names, a host free of [@]; a port that
    [str()] converts; without a port, names and host free of [:]. *)
Definition well_formed (names : option (list string)) (h : string) (p : option Z) : bool :=
  match names with
  | Some l =>
      negb (match l with [] => true | _ :: _ => false end)
      && free_of "," l && free_of "@" l
      && match p with Some _ => true | None => free_of ":" l end
  | None => negb (PyStr.contains "@" h)
  end
  && match p with
     | Some n => match PyInt.str n with Some _ => true | None => false end
     | None => negb (PyStr.contains ":" h)
     end.

(** ** Counting what a run did *)

Definition is_GetIds (e : Event) : bool :=
  match e with GetIds _ _ => true | _ => false end.

Definition is_GetFeatures (e : Event) : bool :=
  match e with GetFeatures _ _ => true | _ => false end.

Definition is_NewTerminal (e : Event) : bool :=
  match e with NewTerminal _ => true | _ => false end.

(** The number of events of one kind. *)
Definition count_events (kind : Event -> bool) (l : list Event) : nat :=
  List.length (filter kind l).

(** What [_create_device] logs between the two queries, for the
    identifiers it has read. *)
Definition identification_log {ext : Externals} (terminal_id : TerminalId)
    (extended_id : option ExtendedId) : list Event :=
  [Log INFO ("Terminal ID = " ++ str_terminal_id terminal_id);
   Log INFO ("Extended ID = " ++ str_extended_id extended_id)]
  ++ match extended_id with
     | Some e => [Log INFO ("Model = IBM " ++ substring 2 4 e ++ " or equivalent")]
     | None => []
     end
  ++ [Log INFO ("Keyboard = " ++ get_keyboard_description terminal_id extended_id)].

(** An environment in which things go wrong: the terminal answers the
    identifier query only when [answers_ids] holds and never the feature
    query, and the codec lookup fails with an exception that is no
    [LookupError]. *)
Definition failing_externals (answers_ids : bool) : Externals :=
  {| get_ids_reply := fun _ _ =>
       if answers_ids
       then inr ({| type := CUT; terminal_id_value := 4 |}, None)
       else inl (Exn OtherError "receive timeout");
     get_features_reply := fun _ _ => inl (Exn OtherError "receive timeout");
     get_keyboard_description := fun _ _ => "3278-2";
     str_terminal_id := fun _ => "<TerminalId>";
     str_features := fun _ => "{}";
     keymap_name := fun _ => "3278 Typewriter";
     codecs_lookup_reply := fun _ => Some (Exn ValueError "embedded null character");
     os_name := "posix" |}.

(** ** [main], lines 169-173 *)

(** Lines 169-170: for the TN3270 emulator the host text is parsed and
    the three results replace [host], [port] and [device_names] of the
    namespace; for any other emulator the namespace stays as it is. *)
Definition main_parse_host (args : Args) (parser : ArgumentParser) : M Args :=
  if String.eqb (emulator args) "tn3270" then
    parsed <- parse_tn3270_host_args args parser ;;
    let '(h, p, names) := parsed in
    ret {| serial_port := serial_port args;
           emulator := emulator args;
           host := h;
           port := Some p;
           device_names := names;
           character_encoding := character_encoding args;
           command := command args;
           command_args := command_args args |}
  else ret args.

(** Line 172: the device constructor handed to the controller. *)
Definition create_device {ext : Externals} (args : Args)
  : Interface -> DeviceAddress -> PollResponse -> M Terminal :=
  fun interface device_address poll_response =>
    _create_device args interface device_address poll_response.

(** Line 173: the session constructor handed to the controller. *)
Definition create_session {ext : Externals} (args : Args) : Terminal -> M Session :=
  fun device => _create_session args device.

(** Lines 169-173, then one call of the session constructor: what the
    controller gets when it asks for a session. *)
Definition main_then_session {ext : Externals} (args : Args)
    (parser : ArgumentParser) (device : Terminal) : M Session :=
  resolved <- main_parse_host args parser ;;
  create_session resolved device.

(** ** Signals before the controller is stored *)

Module Startup.

Import Signals.

(** [main] has not stored the controller yet: the global is empty, no
    activation of the handler has gone past its test, nothing was
    stopped and nothing failed. *)
Definition unpublished (c : Controller) (m : Machine) : Prop :=
  fault m = None
  /\ CONTROLLER (world m) = None
  /\ stop_count (events (world m)) = 0
  /\ Forall (fun pc => pc = line_129 \/ pc = line_131) (handlers m)
  /\ (main_pc m = line_178_construct \/ main_pc m = line_178_store c).

End Startup.

(** * Properties *)

(** ** Runs of the primitives *)

Example example_split_at1 : PyStr.split "@" (Some 1%nat) "a@b@c" = ["a"; "b@c"].
Proof. reflexivity. Qed.
Example example_split_all : PyStr.split "," None "a,,b," = ["a"; EmptyString; "b"; EmptyString].
Proof. reflexivity. Qed.
Example example_split_empty : PyStr.split "," None EmptyString = [EmptyString].
Proof. reflexivity. Qed.
Example example_rsplit_last : PyStr.rsplit ":" (Some 1%nat) "a:b:c" = ["a:b"; "c"].
Proof. reflexivity. Qed.
Example example_rsplit_none : PyStr.rsplit ":" (Some 1%nat) "abc" = ["abc"].
Proof. reflexivity. Qed.
Example example_int_9999 : PyStr.int "9999" = Some 9999%Z.
Proof. reflexivity. Qed.
Example example_int_signed : PyStr.int " -1_000 " = Some (-1000)%Z.
Proof. reflexivity. Qed.
Example example_int_bad :
  map PyStr.int [EmptyString; "x"; "+"; "_1"; "1_"; "1__2"; "1 2"; "0x10"; "- 1"]
  = [None; None; None; None; None; None; None; None; None].
Proof. reflexivity. Qed.
Example example_getitem_last : PyStr.getitem ["a"; "b"] (-1) = Some "b".
Proof. reflexivity. Qed.

(** [int()] converts 4300 digits and refuses 4301, and so does the
    address parser with them as its port token. *)
Example example_int_digit_bound :
  PyStr.int (zeros 4300) = Some 0%Z /\ PyStr.int (zeros 4301) = None.
Proof. split; vm_compute; reflexivity. Qed.

Example example_port_digit_bound :
  fst (parse_tn3270_host_args (tn3270_args ("host:" ++ zeros 4301) None)
         example_parser initial_world)
  = Raise (Exn SystemExit ("argument host: invalid port value: " ++ zeros 4301))
  /\ fst (parse_tn3270_host_args (tn3270_args ("host:" ++ zeros 4300) None)
            example_parser initial_world)
     = Return ("host", 0%Z, None).
Proof. split; vm_compute; reflexivity. Qed.

(** ** Strings *)

Section StringFacts.

Import PyStr.

Lemma append_empty_r (s : string) : s ++ EmptyString = s.
Proof. induction s as [|a s IH]; simpl; congruence. Qed.

Lemma append_assoc (a b c : string) : (a ++ b) ++ c = a ++ (b ++ c).
Proof. induction a as [|x a IH]; simpl; congruence. Qed.

Lemma contains_append (c : ascii) (a b : string) :
  contains c (a ++ b) = contains c a || contains c b.
Proof.
  induction a as [|x a IH]; simpl; [reflexivity|].
  destruct (Ascii.eqb x c); [reflexivity | exact IH].
Qed.

Lemma reverse_append (a b : string) : reverse (a ++ b) = reverse b ++ reverse a.
Proof.
  induction a as [|x a IH]; simpl.
  - now rewrite append_empty_r.
  - now rewrite IH, append_assoc.
Qed.

Lemma reverse_involutive (s : string) : reverse (reverse s) = s.
Proof.
  induction s as [|x s IH]; simpl; [reflexivity|].
  now rewrite reverse_append, IH.
Qed.

Lemma contains_reverse (c : ascii) (s : string) :
  contains c (reverse s) = contains c s.
Proof.
  induction s as [|x s IH]; simpl; [reflexivity|].
  rewrite contains_append, IH. simpl.
  destruct (Ascii.eqb x c), (contains c s); reflexivity.
Qed.

(** [split] never returns the empty list. *)
Lemma split_nonempty (sep : ascii) (m : option nat) (s : string) :
  split sep m s <> [].
Proof.
  destruct s as [|a s]; destruct m as [[|k]|]; simpl; try discriminate;
    destruct (Ascii.eqb a sep); try discriminate;
    destruct (split sep _ s); discriminate.
Qed.

(** Without the separator there is nothing to cut. *)
Lemma split_absent (sep : ascii) (m : option nat) (s : string) :
  contains sep s = false -> split sep m s = [s].
Proof.
  revert m. induction s as [|a s IH]; intros m H.
  - destruct m as [[|k]|]; reflexivity.
  - simpl in H. destruct (Ascii.eqb a sep) eqn:E; [discriminate|].
    destruct m as [[|k]|]; simpl; rewrite ?E, ?IH by assumption; reflexivity.
Qed.

Lemma split_zero (sep : ascii) (s : string) : split sep (Some 0%nat) s = [s].
Proof. destruct s; reflexivity. Qed.

(** One cut is made at the first occurrence of the separator. *)
Lemma split_first (sep : ascii) (l r : string) :
  contains sep l = false ->
  split sep (Some 1%nat) (l ++ String sep r) = [l; r].
Proof.
  induction l as [|a l IH]; intros H; simpl.
  - rewrite Ascii.eqb_refl. simpl. now rewrite split_zero.
  - simpl in H. destruct (Ascii.eqb a sep) eqn:E; [discriminate|].
    now rewrite IH.
Qed.

Lemma rsplit_absent (sep : ascii) (m : option nat) (s : string) :
  contains sep s = false -> rsplit sep m s = [s].
Proof.
  intros H. unfold rsplit.
  rewrite split_absent by now rewrite contains_reverse.
  simpl. now rewrite reverse_involutive.
Qed.

(** One cut from the right is made at the last occurrence. *)
Lemma rsplit_last (sep : ascii) (pre tok : string) :
  contains sep tok = false ->
  rsplit sep (Some 1%nat) (pre ++ String sep tok) = [pre; tok].
Proof.
  intros H. unfold rsplit.
  replace (String sep tok) with (String sep EmptyString ++ tok) by reflexivity.
  rewrite !reverse_append. simpl reverse at 2.
  rewrite append_assoc. simpl append at 2.
  rewrite split_first by now rewrite contains_reverse.
  simpl. now rewrite !reverse_involutive.
Qed.

(** Every occurrence of a character has a first and a last one. *)
Lemma first_occurrence (c : ascii) (s : string) :
  contains c s = true ->
  exists l r, s = l ++ String c r /\ contains c l = false.
Proof.
  induction s as [|a s IH]; simpl; [discriminate|].
  destruct (Ascii.eqb a c) eqn:E.
  - intros _. apply Ascii.eqb_eq in E. subst a. now exists EmptyString, s.
  - intros H. destruct (IH H) as (l & r & -> & Hl).
    exists (String a l), r. simpl. now rewrite E.
Qed.

Lemma last_occurrence (c : ascii) (s : string) :
  contains c s = true ->
  exists pre tok, s = pre ++ String c tok /\ contains c tok = false.
Proof.
  intros H. rewrite <- contains_reverse in H.
  destruct (first_occurrence _ _ H) as (l & r & E & Hl).
  exists (reverse r), (reverse l). split.
  - rewrite <- (reverse_involutive s), E, reverse_append. simpl.
    now rewrite append_assoc.
  - now rewrite contains_reverse.
Qed.

(** Cutting at every comma inverts joining comma-free names. *)
Lemma split_concat (sep : ascii) (names : list string) :
  names <> [] ->
  Forall (fun n => contains sep n = false) names ->
  split sep None (String.concat (String sep EmptyString) names) = names.
Proof.
  induction names as [|n names IH]; [congruence|].
  intros _ HF. inversion HF as [|? ? Hn Hrest]; subst.
  destruct names as [|n' names].
  - simpl. now apply split_absent.
  - assert (IH' := IH ltac:(discriminate) Hrest). clear IH.
    change (String.concat (String sep EmptyString) (n :: n' :: names))
      with (n ++ String sep (String.concat (String sep EmptyString) (n' :: names))).
    revert IH'. generalize (String.concat (String sep EmptyString) (n' :: names)).
    intros rest IH'. clear HF Hrest.
    induction n as [|a n IHn]; simpl.
    + now rewrite Ascii.eqb_refl, IH'.
    + simpl in Hn. destruct (Ascii.eqb a sep) eqn:E; [discriminate|].
      now rewrite IHn.
Qed.

(** The pieces of a full split are free of the separator and join back
    to the text. *)
Lemma split_pieces (sep : ascii) (s : string) :
  Forall (fun n => contains sep n = false) (split sep None s) /\
  String.concat (String sep EmptyString) (split sep None s) = s.
Proof.
  induction s as [|a s [IHF IHc]]; simpl.
  - split; [repeat constructor | reflexivity].
  - destruct (Ascii.eqb a sep) eqn:E.
    + apply Ascii.eqb_eq in E. subst a. split.
      * constructor; [reflexivity | assumption].
      * destruct (split sep None s) as [|p ps] eqn:Es.
        { now apply split_nonempty in Es. }
        change (String.concat (String sep EmptyString) (EmptyString :: p :: ps))
          with (String sep (String.concat (String sep EmptyString) (p :: ps))).
        now rewrite IHc.
    + destruct (split sep None s) as [|p ps] eqn:Es.
      { now apply split_nonempty in Es. }
      apply Forall_cons_iff in IHF. destruct IHF as [Hp Hps]. split.
      * constructor; [simpl; now rewrite E | assumption].
      * destruct ps as [|q ps]; simpl in *; now rewrite <- IHc.
Qed.

End StringFacts.

(** ** The address parser *)

Section IntFacts.

Import PyStr.

Lemma eqb_both (a c : ascii) (P : ascii -> bool) :
  P a = true -> P c = false -> Ascii.eqb a c = false.
Proof.
  intros Ha Hc. destruct (Ascii.eqb a c) eqn:E; [|reflexivity].
  apply Ascii.eqb_eq in E. congruence.
Qed.

Lemma contains_skip_spaces (c : ascii) (s : string) :
  is_space c = false -> contains c (skip_spaces s) = contains c s.
Proof.
  intros Hc. induction s as [|a s IH]; simpl; [reflexivity|].
  destruct (is_space a) eqn:Ea; [|reflexivity].
  now rewrite IH, (eqb_both a c is_space).
Qed.

Lemma contains_scan_digits (c : ascii) (s : string) :
  is_digit c = false -> Ascii.eqb c underscore = false ->
  forall prev digits acc n digits' rest,
    scan_digits prev digits acc s = Some (n, digits', rest) ->
    contains c rest = contains c s.
Proof.
  intros Hd Hu. induction s as [|a s IH]; intros prev digits acc n digits' rest; simpl.
  - destruct (Ascii.eqb prev underscore); [discriminate|].
    intros [= <- <- <-]. reflexivity.
  - destruct (is_digit a) eqn:Ea.
    + intros H. rewrite (IH _ _ _ _ _ _ H). now rewrite (eqb_both a c is_digit).
    + destruct (Ascii.eqb a underscore) eqn:Eu.
      * destruct (Ascii.eqb prev underscore); [discriminate|].
        intros H. rewrite (IH _ _ _ _ _ _ H).
        apply Ascii.eqb_eq in Eu. subst a.
        now rewrite Ascii.eqb_sym, Hu.
      * destruct (Ascii.eqb prev underscore); [discriminate|].
        intros [= <- <- <-]. reflexivity.
Qed.

(** A text holding such a character is no integer literal. *)
Lemma int_foreign (c : ascii) (s : string) :
  foreign_to_int c = true -> contains c s = true -> PyStr.int s = None.
Proof.
  unfold foreign_to_int. rewrite negb_true_iff, !orb_false_iff.
  intros ((((Hs & Hd) & Hu) & Hp) & Hm) H.
  unfold PyStr.int.
  rewrite <- (contains_skip_spaces c s Hs) in H.
  set (s1 := skip_spaces s) in *.
  assert (Hs2 : forall sign s2,
             (match s1 with
              | String a r =>
                  if Ascii.eqb a "+" then (1%Z, r)
                  else if Ascii.eqb a "-" then ((-1)%Z, r)
                  else (1%Z, s1)
              | EmptyString => (1%Z, s1)
              end) = (sign, s2) -> contains c s2 = true).
  { intros sign s2. destruct s1 as [|a r]; [discriminate|].
    simpl in H.
    destruct (Ascii.eqb a "+") eqn:E1.
    - apply Ascii.eqb_eq in E1. subst a. rewrite Ascii.eqb_sym, Hp in H.
      now intros [= <- <-].
    - destruct (Ascii.eqb a "-") eqn:E2.
      + apply Ascii.eqb_eq in E2. subst a. rewrite Ascii.eqb_sym, Hm in H.
        now intros [= <- <-].
      + intros [= <- <-]. exact H. }
  destruct (match s1 with EmptyString => _ | String _ _ => _ end) as [sign s2].
  specialize (Hs2 _ _ eq_refl).
  destruct (startswith s2 "_"); [reflexivity|].
  destruct (scan_digits Ascii.zero 0 0 s2) as [[[n d] rest]|] eqn:Es; [|reflexivity].
  destruct (d =? 0)%nat; [reflexivity|].
  destruct (max_str_digits <? d)%nat; [reflexivity|].
  rewrite <- (contains_scan_digits c s2 Hd Hu _ _ _ _ _ _ Es) in Hs2.
  rewrite <- (contains_skip_spaces c rest Hs) in Hs2.
  destruct (skip_spaces rest); [discriminate | reflexivity].
Qed.

End IntFacts.

Section ParserFacts.

Lemma after_nil (w : World) : after w [] = w.
Proof. destruct w. unfold after. simpl. now rewrite app_nil_r. Qed.

Lemma after_after (w : World) (a b : list Event) :
  after (after w a) b = after w (a ++ b).
Proof. unfold after. simpl. now rewrite app_assoc. Qed.

Lemma emit_after (e : Event) (w : World) : emit e w = (Return tt, after w [e]).
Proof. reflexivity. Qed.

(** An unparsable port token stops the parser with [parser.error]. *)
Lemma parse_bad_port (args : Args) (parser : ArgumentParser) (w : World)
    (rest token : string) :
  cut_at_last ":" (host args) rest (Some token) ->
  PyStr.int token = None ->
  parse_tn3270_host_args args parser w
  = (Raise (Exn SystemExit ("argument host: invalid port value: " ++ token)), w).
Proof.
  intros Hcut Hint. inversion Hcut as [before after0 Hs Hc|]; subst.
  unfold parse_tn3270_host_args.
  rewrite Hs, (rsplit_last _ _ _ Hc).
  unfold bind, try_except, getitem, int. simpl.
  now rewrite Hint.
Qed.

(** With no port token, or one that [int()] accepts, the parser returns
    the host, the resolved port and the logical-unit names. *)
Lemma parse_good (args : Args) (parser : ArgumentParser) (w : World)
    (rest : string)
    (token : option string) (embedded : option Z)
    (lus : option string) (h : string) :
  cut_at_last ":" (host args) rest token ->
  match token with
  | Some t => PyStr.int t = embedded /\ embedded <> None
  | None => embedded = None
  end ->
  cut_at_first "@" rest lus h ->
  parse_tn3270_host_args args parser w
  = (Return (h, resolved_port embedded (port args),
             option_map (PyStr.split "," None) lus),
     after w (notices embedded (port args))).
Proof.
  intros Hcut Hint Hlu.
  unfold parse_tn3270_host_args.
  assert (Hsplit : PyStr.split "@" (Some 1%nat) rest
                   = match lus with Some l => [l; h] | None => [h] end).
  { inversion Hlu as [before after0 Hs Hc|Hc]; subst.
    - now apply split_first.
    - now apply split_absent. }
  inversion Hcut as [before after0 Hs Hc|Hc]; subst.
  - destruct Hint as [Hint Hne].
    destruct embedded as [p|]; [clear Hne | congruence].
    rewrite Hs, (rsplit_last _ _ _ Hc).
    unfold bind, try_except, getitem, int. simpl.
    rewrite Hint. simpl. rewrite Hsplit.
    destruct (port args) as [q|], lus as [l|]; simpl;
      unfold ret; rewrite ?after_nil; reflexivity.
  - subst embedded. rewrite (rsplit_absent _ _ _ Hc).
    unfold bind, getitem. simpl. rewrite Hsplit.
    destruct (port args) as [q|], lus as [l|]; simpl;
      unfold ret; rewrite ?after_nil; reflexivity.
Qed.

End ParserFacts.

Section ParserClaims.

Import PyStr.

(** Every text has its two cuts: the statements below apply to every
    input. *)
Lemma cut_at_last_total (c : ascii) (s : string) :
  exists rest token, cut_at_last c s rest token.
Proof.
  destruct (contains c s) eqn:E.
  - destruct (last_occurrence _ _ E) as (pre & tok & Hs & Hc).
    exists pre, (Some tok). now constructor.
  - exists s, None. now constructor.
Qed.

Lemma cut_at_first_total (c : ascii) (s : string) :
  exists lus h, cut_at_first c s lus h.
Proof.
  destruct (contains c s) eqn:E.
  - destruct (first_occurrence _ _ E) as (l & r & Hs & Hc).
    exists (Some l), r. now constructor.
  - exists None, s. now constructor.
Qed.

(** C2.  The address parser cuts its input at the last [:]; an
    unparsable port token ends in a configuration error that names the
    token, and nothing is returned.  Otherwise the token is the port; the
    rest is cut at the first [@], the right-hand side is the host and the
    left-hand side, when there is one, is cut at every comma into the
    ordered, non-empty list of logical-unit names. *)
Theorem C2_address_parser_grammar (args : Args) (parser : ArgumentParser) (w : World)
    (rest : string) (token lus : option string) (h : string) :
  cut_at_last ":" (host args) rest token ->
  cut_at_first "@" rest lus h ->
  (forall t, token = Some t -> PyStr.int t = None ->
     parse_tn3270_host_args args parser w
     = (Raise (Exn SystemExit ("argument host: invalid port value: " ++ t)), w))
  /\ (forall t p, token = Some t -> PyStr.int t = Some p ->
        fst (parse_tn3270_host_args args parser w)
        = Return (h, p, option_map (split "," None) lus))
  /\ (token = None ->
        fst (parse_tn3270_host_args args parser w)
        = Return (h, resolved_port None (port args),
                  option_map (split "," None) lus))
  /\ (forall l, lus = Some l ->
        split "," None l <> []
        /\ Forall (fun name => contains "," name = false) (split "," None l)
        /\ String.concat "," (split "," None l) = l)
  /\ (forall names, names <> [] ->
        Forall (fun name => contains "," name = false) names ->
        lus = Some (String.concat "," names) ->
        option_map (split "," None) lus = Some names).
Proof.
  intros Hlast Hfirst. repeat split.
  - intros t -> Hint. now apply (parse_bad_port args parser w rest t).
  - intros t p -> Hint.
    rewrite (parse_good args parser w rest (Some t) (Some p) lus h); try assumption.
    + reflexivity.
    + split; [assumption | discriminate].
  - intros ->.
    now rewrite (parse_good args parser w rest None None lus h).
  - apply split_nonempty.
  - apply (split_pieces "," l).
  - apply (split_pieces "," l).
  - intros names Hne HF ->. simpl. f_equal. now apply split_concat.
Qed.

(** The instance of the spec, [lu1,lu2@host:9999], and a port token that
    is no integer, [host:http]. *)
Lemma C2_address_parser_examples :
  fst (parse_tn3270_host_args (tn3270_args "lu1,lu2@host:9999" None)
         example_parser initial_world)
  = Return ("host", 9999%Z, Some ["lu1"; "lu2"])
  /\ parse_tn3270_host_args (tn3270_args "host:http" None)
       example_parser initial_world
     = (Raise (Exn SystemExit "argument host: invalid port value: http"),
        initial_world).
Proof.
  split.
  - destruct (C2_address_parser_grammar
                (tn3270_args "lu1,lu2@host:9999" None) example_parser initial_world
                "lu1,lu2@host" (Some "9999") (Some "lu1,lu2") "host")
      as (_ & Hport & _).
    + now apply (cut_last_found ":" _ "lu1,lu2@host" "9999").
    + now apply (cut_first_found "@" _ "lu1,lu2" "host").
    + exact (Hport "9999" 9999%Z eq_refl eq_refl).
  - destruct (C2_address_parser_grammar
                (tn3270_args "host:http" None) example_parser initial_world
                "host" (Some "http") None "host")
      as (Hbad & _).
    + now apply (cut_last_found ":" _ "host" "http").
    + now apply cut_first_absent.
    + exact (Hbad "http" eq_refl eq_refl).
Defined.

(** C3.  With a legacy port supplied: a port embedded in the host text
    wins and the legacy one is ignored, under a warning; with no embedded
    port the legacy one is the resolved port, under a different, merely
    informational notice. *)
Theorem C3_legacy_port_precedence (args : Args) (parser : ArgumentParser) (w : World) (legacy : Z)
    (rest : string) (token lus : option string) (h : string) :
  port args = Some legacy ->
  cut_at_last ":" (host args) rest token ->
  cut_at_first "@" rest lus h ->
  (forall t p, token = Some t -> PyStr.int t = Some p ->
     parse_tn3270_host_args args parser w
     = (Return (h, p, option_map (split "," None) lus),
        after w [Log WARNING "The port argument is deprecated and will be removed in the future, port from host:port is being used."]))
  /\ (token = None ->
        parse_tn3270_host_args args parser w
        = (Return (h, legacy, option_map (split "," None) lus),
           after w [Log INFO "The port argument is deprecated and will be removed in the future, use host:port instead."])).
Proof.
  intros Hlegacy Hlast Hfirst. split.
  - intros t p -> Hint.
    rewrite (parse_good args parser w rest (Some t) (Some p) lus h); try assumption.
    + now rewrite Hlegacy.
    + split; [assumption | discriminate].
  - intros ->.
    rewrite (parse_good args parser w rest None None lus h); try assumption; trivial.
    now rewrite Hlegacy.
Qed.

(** The instances of the spec: [host:12] and [host], each with the
    legacy port 34. *)
Lemma C3_legacy_port_examples :
  fst (parse_tn3270_host_args (tn3270_args "host:12" (Some 34%Z)) example_parser initial_world)
  = Return ("host", 12%Z, None)
  /\ fst (parse_tn3270_host_args (tn3270_args "host" (Some 34%Z)) example_parser initial_world)
     = Return ("host", 34%Z, None).
Proof.
  split.
  - destruct (C3_legacy_port_precedence
                (tn3270_args "host:12" (Some 34%Z)) example_parser initial_world 34%Z
                "host" (Some "12") None "host") as [Hembedded _].
    + reflexivity.
    + now apply (cut_last_found ":" _ "host" "12").
    + now apply cut_first_absent.
    + now rewrite (Hembedded "12" 12%Z eq_refl eq_refl).
  - destruct (C3_legacy_port_precedence
                (tn3270_args "host" (Some 34%Z)) example_parser initial_world 34%Z
                "host" None None "host") as [_ Hlegacy].
    + reflexivity.
    + now apply cut_last_absent.
    + now apply cut_first_absent.
    + now rewrite (Hlegacy eq_refl).
Defined.

(** C8, as stated, fails: [lu1@host] has no [:] and comes with no legacy
    port, yet its list of logical-unit names is present. *)
Lemma C8_default_port_counterexample :
  contains ":" (host (tn3270_args "lu1@host" None)) = false
  /\ port (tn3270_args "lu1@host" None) = None
  /\ fst (parse_tn3270_host_args (tn3270_args "lu1@host" None) example_parser initial_world)
     = Return ("host", 23%Z, Some ["lu1"]).
Proof. repeat split. Qed.

(** C8, amended.  For a host text without [:] and no legacy port the
    port is 23 and nothing is logged; the list of logical-unit names is
    absent exactly when the text has no [@] either, and the host is then
    the whole text. *)
Theorem C8_default_port (args : Args) (parser : ArgumentParser) (w : World) :
  contains ":" (host args) = false ->
  port args = None ->
  exists h names,
    parse_tn3270_host_args args parser w = (Return (h, 23%Z, names), w)
    /\ (names = None <-> contains "@" (host args) = false)
    /\ (names = None -> h = host args).
Proof.
  intros Hcolon Hlegacy.
  destruct (cut_at_first_total "@" (host args)) as (lus & h & Hfirst).
  exists h, (option_map (split "," None) lus).
  rewrite (parse_good args parser w (host args) None None lus h);
    try assumption; trivial; [|now constructor].
  rewrite Hlegacy. simpl. rewrite after_nil. split; [reflexivity|].
  inversion Hfirst as [l r Hs Hl|Hc]; subst; simpl.
  - split; [split; [discriminate|] | discriminate].
    rewrite Hs, contains_append. simpl.
    rewrite orb_true_r. discriminate.
  - split; [split; trivial | trivial].
Qed.

Lemma C8_default_port_example :
  parse_tn3270_host_args (tn3270_args "host" None) example_parser initial_world
  = (Return ("host", 23%Z, None), initial_world).
Proof.
  destruct (C8_default_port (tn3270_args "host" None) example_parser initial_world)
    as (h & names & Hrun & Hnames & Hhost); [reflexivity | reflexivity |].
  assert (Hn : names = None) by now apply Hnames.
  rewrite Hrun, Hn, (Hhost Hn). reflexivity.
Defined.

(** C10, as stated, fails: [@host:x] holds an [@], but its port token is
    no integer and the parser reports the error instead of returning a
    list. *)
Lemma C10_lu_list_present_counterexample :
  contains "@" (host (tn3270_args "@host:x" None)) = true
  /\ fst (parse_tn3270_host_args (tn3270_args "@host:x" None) example_parser initial_world)
     = Raise (Exn SystemExit "argument host: invalid port value: x").
Proof. split; reflexivity. Qed.

(** C10, amended.  For an input that holds an [@], either the port token
    is unparsable and the parser stops with the configuration error, or
    it returns a present, non-empty list of logical-unit names: the text
    before the first [@], cut at every comma, which is the one-element
    list of the empty text when nothing stands before the [@]. *)
Theorem C10_lu_list_present (args : Args) (parser : ArgumentParser) (w : World) :
  contains "@" (host args) = true ->
  (exists rest t,
      cut_at_last ":" (host args) rest (Some t) /\ PyStr.int t = None
      /\ parse_tn3270_host_args args parser w
         = (Raise (Exn SystemExit ("argument host: invalid port value: " ++ t)), w))
  \/ (exists h p before tail,
         host args = before ++ "@" ++ tail
         /\ contains "@" before = false
         /\ fst (parse_tn3270_host_args args parser w)
            = Return (h, p, Some (split "," None before))
         /\ split "," None before <> []
         /\ (before = EmptyString -> split "," None before = [EmptyString])).
Proof.
  intros Hat.
  destruct (cut_at_last_total ":" (host args)) as (rest & token & Hlast).
  destruct (cut_at_first_total "@" rest) as (lus & h & Hfirst).
  assert (Hgood : forall embedded,
             match token with
             | Some t => PyStr.int t = embedded /\ embedded <> None
             | None => embedded = None
             end ->
             exists h p before tail,
               host args = before ++ "@" ++ tail
               /\ contains "@" before = false
               /\ fst (parse_tn3270_host_args args parser w)
                  = Return (h, p, Some (split "," None before))
               /\ split "," None before <> []
               /\ (before = EmptyString -> split "," None before = [EmptyString])).
  { intros embedded Hemb.
    assert (Hrest : contains "@" rest = true).
    { inversion Hlast as [pre tok Hs Hc|Hc]; subst; [|assumption].
      destruct Hemb as [Hint Hne].
      rewrite Hs, contains_append in Hat. simpl in Hat.
      apply orb_true_iff in Hat. destruct Hat as [Hat|Hat]; [assumption|].
      rewrite (int_foreign "@" tok eq_refl Hat) in Hint. congruence. }
    assert (Hfirst' := Hfirst).
    destruct Hfirst' as [l r Hs Hl|Hc]; [|congruence].
    assert (Htail : exists tail, host args = l ++ "@" ++ tail).
    { destruct Hlast as [pre tok Hs' Hc'|Hc'].
      - exists (r ++ String ":" tok). rewrite Hs', Hs, append_assoc. reflexivity.
      - now exists r. }
    destruct Htail as [tail Htail].
    exists r, (resolved_port embedded (port args)), l, tail.
    rewrite (parse_good args parser w rest token embedded (Some l) r) by assumption.
    repeat apply conj; try assumption; try reflexivity.
    - apply split_nonempty.
    - now intros ->. }
  destruct token as [t|].
  - destruct (PyStr.int t) as [p|] eqn:Hint.
    + right. apply (Hgood (Some p)). split; [reflexivity | discriminate].
    + left. exists rest, t. repeat split; try assumption.
      now apply (parse_bad_port args parser w rest t).
  - right. now apply (Hgood None).
Qed.

(** The instance of the claim: [@host]. *)
Lemma C10_lu_list_present_example :
  fst (parse_tn3270_host_args (tn3270_args "@host" None) example_parser initial_world)
  = Return ("host", 23%Z, Some [EmptyString]).
Proof.
  destruct (C10_lu_list_present (tn3270_args "@host" None) example_parser
              initial_world eq_refl)
    as [(rest & t & _ & _ & Hrun)
       | (h & p & before & tail & Hhost & Hbefore & Hrun & _ & Hempty)].
  - apply (f_equal fst) in Hrun. simpl in Hrun. discriminate Hrun.
  - destruct before as [|a before].
    + rewrite Hrun. cbv in Hrun. injection Hrun as <- <-. reflexivity.
    + simpl in Hhost. injection Hhost as <- _. simpl in Hbefore. discriminate.
Defined.

End ParserClaims.

(** ** The keymap selector *)

Section KeymapClaims.

Import PyStr.

Lemma startswith_iff (s p : string) :
  startswith s p = true <-> exists tail, s = p ++ tail.
Proof.
  revert s. induction p as [|b p IH]; intros s; simpl.
  - split; [intros _; now exists s | reflexivity].
  - destruct s as [|a s].
    + split; [discriminate | intros [tail H]; discriminate].
    + destruct (Ascii.eqb a b) eqn:E.
      * apply Ascii.eqb_eq in E. subst b. rewrite IH.
        split; intros [tail H]; exists tail; congruence.
      * split; [discriminate|]. intros [tail H]. injection H as -> _.
        now rewrite Ascii.eqb_refl in E.
Qed.

Lemma startswith_append (p tail : string) : startswith (p ++ tail) p = true.
Proof. apply startswith_iff. now exists tail. Qed.

Lemma not_startswith (s p : string) :
  (forall tail, s <> p ++ tail) -> startswith s p = false.
Proof.
  intros H. destruct (startswith s p) eqn:E; [|reflexivity].
  apply startswith_iff in E. destruct E as [tail E]. now apply H in E.
Qed.

(** C6.  The keymap selector is a total function of the description
    alone.  A description that starts with [3278] selects the 3278
    typewriter keymap, one that starts with [IBM-TYPEWRITER] the IBM
    typewriter keymap, one that starts with [IBM-ENHANCED] the IBM
    enhanced keymap; the tests are made in this order, the first that
    holds decides, letter case matters, and any other description selects
    the 3278 typewriter keymap. *)
Theorem C6_keymap_selector (description : string) :
  (forall tail, description = "3278" ++ tail ->
     _get_keymap description = KEYMAP_3278_TYPEWRITER)
  /\ (forall tail, description = "IBM-TYPEWRITER" ++ tail ->
        _get_keymap description = KEYMAP_IBM_TYPEWRITER)
  /\ (forall tail, description = "IBM-ENHANCED" ++ tail ->
        _get_keymap description = KEYMAP_IBM_ENHANCED)
  /\ ((forall tail, description <> "3278" ++ tail) ->
      (forall tail, description <> "IBM-TYPEWRITER" ++ tail) ->
      (forall tail, description <> "IBM-ENHANCED" ++ tail) ->
      _get_keymap description = KEYMAP_3278_TYPEWRITER)
  /\ _get_keymap description
     = (if startswith description "3278" then KEYMAP_3278_TYPEWRITER
        else if startswith description "IBM-TYPEWRITER" then KEYMAP_IBM_TYPEWRITER
        else if startswith description "IBM-ENHANCED" then KEYMAP_IBM_ENHANCED
        else KEYMAP_3278_TYPEWRITER)
  /\ _get_keymap "ibm-typewriter" = KEYMAP_3278_TYPEWRITER
  /\ _get_keymap "Ibm-Enhanced" = KEYMAP_3278_TYPEWRITER.
Proof.
  repeat apply conj; try reflexivity.
  - intros tail ->. reflexivity.
  - intros tail ->. reflexivity.
  - intros tail ->. reflexivity.
  - intros H1 H2 H3. unfold _get_keymap.
    now rewrite !not_startswith.
Qed.

Lemma C6_keymap_selector_examples :
  _get_keymap "3278-2" = KEYMAP_3278_TYPEWRITER
  /\ _get_keymap "IBM-TYPEWRITER-101" = KEYMAP_IBM_TYPEWRITER
  /\ _get_keymap "IBM-ENHANCED" = KEYMAP_IBM_ENHANCED
  /\ _get_keymap "UNKNOWN" = KEYMAP_3278_TYPEWRITER.
Proof.
  repeat apply conj.
  - destruct (C6_keymap_selector "3278-2") as (H & _). now apply (H "-2").
  - destruct (C6_keymap_selector "IBM-TYPEWRITER-101") as (_ & H & _).
    now apply (H "-101").
  - destruct (C6_keymap_selector "IBM-ENHANCED") as (_ & _ & H & _).
    now apply (H EmptyString).
  - destruct (C6_keymap_selector "UNKNOWN") as (_ & _ & _ & H & _).
    apply H; intros tail; discriminate.
Defined.

End KeymapClaims.

(** ** The encoding validator *)

(** C7, as stated, fails: the lookup of a name that holds a NUL character
    fails with [ValueError], which is no [LookupError], and the validator
    raises this [ValueError], not the error that names the encoding. *)
Lemma C7_encoding_validator_counterexample :
  @codecs_lookup_reply nul_checking_externals nul_name
  = Some (Exn ValueError "embedded null character")
  /\ @_get_character_encoding nul_checking_externals nul_name initial_world
     = (Raise (Exn ValueError "embedded null character"), initial_world)
  /\ Exn ValueError "embedded null character"
     <> Exn ArgumentTypeError ("invalid encoding: " ++ nul_name).
Proof. repeat apply conj; [reflexivity | reflexivity | discriminate]. Qed.

Section EncodingClaims.

Context {ext : Externals}.

(** C7, amended.  The encoding validator returns the name it was given, and
    leaves the world as it was, whenever the lookup finds a codec; it
    raises [ArgumentTypeError] with a message naming the encoding
    whenever the lookup fails with [LookupError].  Validating an accepted
    name a second time yields the same name again. *)
Theorem C7_encoding_validator (encoding : string) (w : World) :
  (codecs_lookup_reply encoding = None ->
     _get_character_encoding encoding w = (Return encoding, w)
     /\ validate_twice encoding w = (Return encoding, w))
  /\ (forall e, codecs_lookup_reply encoding = Some e ->
        issubclass (exn_class e) LookupError = true ->
        _get_character_encoding encoding w
        = (Raise (Exn ArgumentTypeError ("invalid encoding: " ++ encoding)), w)).
Proof.
  unfold validate_twice, _get_character_encoding, bind, try_except, codecs_lookup.
  split.
  - intros H. rewrite H. split; [reflexivity|]. simpl. now rewrite H.
  - intros e -> Hsub. simpl. rewrite Hsub. reflexivity.
Qed.

End EncodingClaims.

Lemma C7_encoding_validator_examples :
  @_get_character_encoding (example_externals "posix" CUT) "ibm037" initial_world
  = (Return "ibm037", initial_world)
  /\ @_get_character_encoding (example_externals "posix" CUT)
       "not-a-real-encoding" initial_world
     = (Raise (Exn ArgumentTypeError "invalid encoding: not-a-real-encoding"),
        initial_world).
Proof.
  split.
  - destruct (@C7_encoding_validator (example_externals "posix" CUT)
                "ibm037" initial_world) as [Hknown _].
    now apply Hknown.
  - destruct (@C7_encoding_validator (example_externals "posix" CUT)
                "not-a-real-encoding" initial_world) as [_ Hunknown].
    now apply (Hunknown (Exn LookupError "unknown encoding: not-a-real-encoding")).
Defined.

(** ** The session factory *)

Section SessionClaims.

Context {ext : Externals}.

(** C5.  The session factory builds a TN3270 session from the device,
    host, port, logical-unit names and encoding when the emulator is
    [tn3270]; it builds a VT100 session from the device and the host
    command when the emulator is [vt100] and the platform is POSIX; in
    every other case it raises [ValueError('Unsupported emulator')] and
    no session is constructed. *)
Theorem C5_session_factory (args : Args) (device : Terminal) (w : World) :
  (emulator args = "tn3270" ->
     let session := TN3270Session device (host args) (port args)
                      (device_names args) (character_encoding args) in
     _create_session args device w = (Return session, after w [NewSession session]))
  /\ (emulator args = "vt100" -> os_name = "posix" ->
        let session := VT100Session device (command args :: command_args args) in
        _create_session args device w = (Return session, after w [NewSession session]))
  /\ (emulator args <> "tn3270" ->
      emulator args <> "vt100" \/ os_name <> "posix" ->
      _create_session args device w
      = (Raise (Exn ValueError "Unsupported emulator"), w)).
Proof.
  unfold _create_session, IS_VT100_AVAILABLE. repeat split.
  - intros ->. reflexivity.
  - intros -> ->. reflexivity.
  - intros Htn Hvt.
    apply String.eqb_neq in Htn. rewrite Htn.
    destruct Hvt as [Hvt|Hos].
    + apply String.eqb_neq in Hvt. now rewrite Hvt.
    + apply String.eqb_neq in Hos. now rewrite Hos, andb_false_r.
Qed.

End SessionClaims.

(** The three cases of the session factory: TN3270, VT100 on POSIX,
    VT100 elsewhere. *)
Lemma C5_session_factory_examples :
  fst (@_create_session (example_externals "nt" CUT)
         (tn3270_args "host" (Some 23%Z)) example_terminal initial_world)
  = Return (TN3270Session example_terminal "host" (Some 23%Z) None "ibm037")
  /\ @_create_session (example_externals "posix" CUT)
       (vt100_args "sh" ["-l"]) example_terminal initial_world
     = (Return (VT100Session example_terminal ["sh"; "-l"]),
        after initial_world [NewSession (VT100Session example_terminal ["sh"; "-l"])])
  /\ @_create_session (example_externals "nt" CUT)
       (vt100_args "sh" ["-l"]) example_terminal initial_world
     = (Raise (Exn ValueError "Unsupported emulator"), initial_world).
Proof.
  repeat apply conj.
  - destruct (@C5_session_factory (example_externals "nt" CUT)
                (tn3270_args "host" (Some 23%Z)) example_terminal initial_world)
      as (Htn & _).
    now rewrite (Htn eq_refl).
  - destruct (@C5_session_factory (example_externals "posix" CUT)
                (vt100_args "sh" ["-l"]) example_terminal initial_world)
      as (_ & Hvt & _).
    exact (Hvt eq_refl eq_refl).
  - destruct (@C5_session_factory (example_externals "nt" CUT)
                (vt100_args "sh" ["-l"]) example_terminal initial_world)
      as (_ & _ & Hother).
    apply Hother; [discriminate | right; discriminate].
Defined.

(** ** The device identifier *)

Section DeviceClaims.

Context {ext : Externals}.

Lemma TerminalType_eqb_CUT (kind : TerminalType) :
  TerminalType_eqb kind CUT = true <-> kind = CUT.
Proof. destruct kind; simpl; split; congruence. Qed.

(** For an identifier of type CUT and a terminal that answers the
    feature query, the device is built, after both queries. *)
Lemma create_device_cut (args : Args) (interface : Interface)
    (device_address : DeviceAddress) (poll_response : PollResponse) (w : World)
    (terminal_id : TerminalId) (extended_id : option ExtendedId)
    (features : Features) :
  get_ids_reply interface device_address = inr (terminal_id, extended_id) ->
  type terminal_id = CUT ->
  get_features_reply interface device_address = inr features ->
  exists new,
    _create_device args interface device_address poll_response w
    = (Return {| terminal_interface := interface;
                 terminal_device_address := device_address;
                 terminal_terminal_id := terminal_id;
                 terminal_extended_id := extended_id;
                 terminal_features := features;
                 terminal_keymap :=
                   _get_keymap (get_keyboard_description terminal_id extended_id) |},
       after w new)
    /\ In (GetFeatures interface device_address) new.
Proof.
  intros Hids Hkind Hfeatures.
  unfold _create_device, get_ids, get_features, bind, logger_info.
  rewrite !emit_after, Hids. simpl. rewrite Hkind. simpl.
  destruct extended_id as [e|]; simpl; rewrite Hfeatures; simpl;
    unfold ret, after; simpl; rewrite <- !app_assoc; simpl;
    eexists; (split; [reflexivity|]); simpl; tauto.
Qed.

(** C1.  When the identifier read from the terminal is not of type CUT,
    the device identifier raises [UnsupportedDeviceError] right after
    the identifier query and its log record: no feature query is issued
    and no [Terminal] is constructed.  A [Terminal] is returned only for
    an identifier of type CUT. *)
Theorem C1_only_cut_terminals (args : Args) (interface : Interface)
    (device_address : DeviceAddress) (poll_response : PollResponse) (w : World) :
  (forall terminal_id extended_id,
     get_ids_reply interface device_address = inr (terminal_id, extended_id) ->
     type terminal_id <> CUT ->
     _create_device args interface device_address poll_response w
     = (Raise (Exn UnsupportedDeviceError "Only CUT type terminals are supported"),
        after w [GetIds interface device_address;
                 Log INFO ("Terminal ID = " ++ str_terminal_id terminal_id)]))
  /\ (forall terminal,
        fst (_create_device args interface device_address poll_response w)
        = Return terminal ->
        type (terminal_terminal_id terminal) = CUT
        /\ exists extended_id,
             get_ids_reply interface device_address
             = inr (terminal_terminal_id terminal, extended_id)).
Proof.
  unfold _create_device, get_ids, get_features, bind, logger_info.
  rewrite !emit_after. split.
  - intros terminal_id extended_id -> Hkind. simpl.
    destruct (TerminalType_eqb (type terminal_id) CUT) eqn:E.
    + now apply TerminalType_eqb_CUT in E.
    + simpl. unfold raise, after. simpl. now rewrite <- app_assoc.
  - intros terminal.
    destruct (get_ids_reply interface device_address) as [e|[terminal_id extended_id]];
      simpl; [discriminate|].
    destruct (TerminalType_eqb (type terminal_id) CUT) eqn:E; simpl; [|discriminate].
    apply TerminalType_eqb_CUT in E.
    destruct extended_id as [e|]; simpl;
      (destruct (get_features_reply interface device_address) as [e'|features];
       simpl; [discriminate|]);
      intros [= <-]; simpl; (split; [assumption | eexists; reflexivity]).
Qed.

End DeviceClaims.

(** A terminal of type DFT is refused; the terminal that is built for
    one of type CUT carries that type. *)
Lemma C1_only_cut_terminals_examples :
  @_create_device (example_externals "posix" DFT) (tn3270_args "host" None)
    example_interface example_address example_poll_response initial_world
  = (Raise (Exn UnsupportedDeviceError "Only CUT type terminals are supported"),
     after initial_world [GetIds example_interface example_address;
                          Log INFO "Terminal ID = <TerminalId>"])
  /\ fst (@_create_device (example_externals "posix" CUT) (tn3270_args "host" None)
            example_interface example_address example_poll_response initial_world)
     = Return example_terminal
  /\ type (terminal_terminal_id example_terminal) = CUT.
Proof.
  repeat apply conj.
  - destruct (@C1_only_cut_terminals (example_externals "posix" DFT)
                (tn3270_args "host" None) example_interface example_address
                example_poll_response initial_world) as [Hrefused _].
    apply (Hrefused {| type := DFT; terminal_id_value := 4 |} (Some "c1348300")).
    + reflexivity.
    + discriminate.
  - reflexivity.
  - destruct (@C1_only_cut_terminals (example_externals "posix" CUT)
                (tn3270_args "host" None) example_interface example_address
                example_poll_response initial_world) as [_ Hbuilt].
    destruct (Hbuilt example_terminal eq_refl) as [Hkind _].
    exact Hkind.
Defined.

(** What a successful identification leaves behind, in order. *)
Example create_device_trace :
  snd (@_create_device (example_externals "posix" CUT) (tn3270_args "host" None)
         example_interface example_address example_poll_response initial_world)
  = after initial_world
      [GetIds example_interface example_address;
       Log INFO "Terminal ID = <TerminalId>";
       Log INFO "Extended ID = c1348300";
       Log INFO "Model = IBM 3483 or equivalent";
       Log INFO "Keyboard = IBM-TYPEWRITER";
       GetFeatures example_interface example_address;
       Log INFO "Features = {}";
       Log INFO "Keymap = IBM Typewriter";
       NewTerminal example_terminal].
Proof. reflexivity. Qed.

(** ** The termination handler *)

Section HandlerClaims.

Lemma stop_count_app (a b : list Event) :
  stop_count (a ++ b) = stop_count a + stop_count b.
Proof.
  induction a as [|e a IH]; simpl; [reflexivity|].
  destruct e; simpl; now rewrite IH.
Qed.

(** One activation, from any world. *)
Lemma signal_handler_run (number : Z) (frame : unit) (w : World) :
  _signal_handler number frame w
  = (Return tt,
     match CONTROLLER w with
     | Some c =>
         {| CONTROLLER := None;
            events := events w ++ [Log INFO "Stopping controller..."; Stop c] |}
     | None => after w [Log INFO "Stopping controller..."]
     end).
Proof.
  unfold _signal_handler, bind, logger_info, load_CONTROLLER, store_CONTROLLER,
    controller_stop, emit. simpl.
  destruct (CONTROLLER w) as [c|] eqn:E; simpl.
  - now rewrite <- app_assoc.
  - unfold after, ret. now rewrite E.
Qed.

(** Activations that find no controller never stop one. *)
Lemma handler_calls_idle (signals : list Z) (w : World) :
  CONTROLLER w = None ->
  fst (handler_calls signals w) = Return tt
  /\ CONTROLLER (snd (handler_calls signals w)) = None
  /\ stop_count (events (snd (handler_calls signals w))) = stop_count (events w).
Proof.
  revert w. induction signals as [|n signals IH]; intros w Hw; simpl.
  - now repeat split.
  - unfold bind. rewrite signal_handler_run, Hw.
    destruct (IH (after w [Log INFO "Stopping controller..."]) Hw) as (H1 & H2 & H3).
    repeat split; try assumption.
    rewrite H3. simpl. rewrite stop_count_app. simpl. lia.
Qed.

(** C4.  The termination handler calls [stop] on the controller it
    holds and clears the reference; holding none, it calls nothing and
    the reference stays absent (a log record is all it leaves).  Hence
    any run of activations with no start in between, two in particular,
    makes at most one [stop] call; an activation before any start does
    nothing to a controller; and the reference, once cleared, is never
    set again by the handler. *)
Theorem C4_termination_handler (number : Z) (frame : unit) (w : World) :
  (forall c, CONTROLLER w = Some c ->
     _signal_handler number frame w
     = (Return tt,
        {| CONTROLLER := None;
           events := events w ++ [Log INFO "Stopping controller..."; Stop c] |}))
  /\ (CONTROLLER w = None ->
        _signal_handler number frame w
        = (Return tt, after w [Log INFO "Stopping controller..."]))
  /\ CONTROLLER (snd (_signal_handler number frame w)) = None
  /\ (forall signals,
        fst (handler_calls signals w) = Return tt
        /\ stop_count (events (snd (handler_calls signals w)))
           <= stop_count (events w) + 1
        /\ (signals <> [] -> CONTROLLER (snd (handler_calls signals w)) = None)
        /\ (CONTROLLER w = None ->
            CONTROLLER (snd (handler_calls signals w)) = None
            /\ stop_count (events (snd (handler_calls signals w)))
               = stop_count (events w)))
  /\ (forall first second,
        stop_count (events (snd (handler_calls [first; second] w)))
        <= stop_count (events w) + 1)
  /\ _signal_handler number frame initial_world
     = (Return tt, after initial_world [Log INFO "Stopping controller..."]).
Proof.
  assert (Hmany : forall signals,
        fst (handler_calls signals w) = Return tt
        /\ stop_count (events (snd (handler_calls signals w)))
           <= stop_count (events w) + 1
        /\ (signals <> [] -> CONTROLLER (snd (handler_calls signals w)) = None)
        /\ (CONTROLLER w = None ->
            CONTROLLER (snd (handler_calls signals w)) = None
            /\ stop_count (events (snd (handler_calls signals w)))
               = stop_count (events w))).
  { intros signals. destruct signals as [|n signals].
    - simpl. repeat split; try lia; try assumption. congruence.
    - simpl. unfold bind. rewrite signal_handler_run.
      destruct (CONTROLLER w) as [c|] eqn:Hw.
      + destruct (handler_calls_idle signals
                    {| CONTROLLER := None;
                       events := events w ++ [Log INFO "Stopping controller..."; Stop c] |}
                    eq_refl) as (H1 & H2 & H3).
        repeat split; try assumption; try congruence.
        rewrite H3. simpl. rewrite stop_count_app. simpl. lia.
      + destruct (handler_calls_idle signals
                    (after w [Log INFO "Stopping controller..."]) Hw) as (H1 & H2 & H3).
        assert (H4 : stop_count (events (after w [Log INFO "Stopping controller..."]))
                     = stop_count (events w)).
        { simpl. rewrite stop_count_app. simpl. lia. }
        repeat split; try (intros; assumption); try (rewrite H3, H4; lia). }
  repeat apply conj.
  - intros c Hc. rewrite signal_handler_run, Hc. reflexivity.
  - intros Hc. rewrite signal_handler_run, Hc. reflexivity.
  - rewrite signal_handler_run.
    destruct (CONTROLLER w) eqn:E; simpl; [reflexivity | exact E].
  - exact Hmany.
  - intros first second. apply (Hmany [first; second]).
  - reflexivity.
Qed.

End HandlerClaims.

Lemma C4_termination_handler_example :
  snd (handler_calls [SIGINT; SIGTERM]
         {| CONTROLLER := Some example_controller; events := [Run example_controller] |})
  = {| CONTROLLER := None;
       events := [Run example_controller;
                  Log INFO "Stopping controller..."; Stop example_controller;
                  Log INFO "Stopping controller..."] |}
  /\ _signal_handler SIGINT tt
       {| CONTROLLER := Some example_controller; events := [Run example_controller] |}
     = (Return tt,
        {| CONTROLLER := None;
           events := [Run example_controller;
                      Log INFO "Stopping controller..."; Stop example_controller] |}).
Proof.
  split; [reflexivity|].
  destruct (C4_termination_handler SIGINT tt
              {| CONTROLLER := Some example_controller;
                 events := [Run example_controller] |}) as [Hheld _].
  exact (Hheld example_controller eq_refl).
Defined.

(** ** Signals against [main] *)

Module SignalFacts.

Import Signals.

Section Invariants.

Variable c : Controller.

Lemma events_log_event (m : Machine) (e : Event) :
  events (world (log_event m e)) = (events (world m) ++ [e])%list.
Proof. reflexivity. Qed.

(** *** Every activation calls [stop] at most once *)

Lemma step_budget (a : Action) (m : Machine) :
  stop_count (events (world (step c a m))) + pending (handlers (step c a m))
  <= stop_count (events (world m)) + pending (handlers m)
     + match a with Deliver => 1 | Tick => 0 end.
Proof.
  unfold step. destruct (fault m); [destruct a; lia|].
  destruct a; simpl; [lia|].
  destruct (handlers m) as [|pc outer] eqn:Hh.
  - unfold main_step. destruct (main_pc m); simpl; rewrite ?Hh; simpl; try lia.
    destruct (CONTROLLER (world m)); simpl; rewrite ?Hh, ?stop_count_app; simpl; lia.
  - destruct pc; simpl; rewrite ?stop_count_app; simpl; try lia;
      destruct (CONTROLLER (world m)); simpl; rewrite ?Hh; simpl; lia.
Qed.

Lemma run_budget (schedule : list Action) (m : Machine) :
  stop_count (events (world (run_schedule c schedule m)))
  + pending (handlers (run_schedule c schedule m))
  <= stop_count (events (world m)) + pending (handlers m) + deliveries schedule.
Proof.
  revert m. induction schedule as [|a schedule IH]; intros m; simpl.
  - unfold deliveries. simpl. lia.
  - specialize (IH (step c a m)). pose proof (step_budget a m) as Hs.
    unfold deliveries in *. simpl. destruct a; simpl in *; lia.
Qed.

(** *** [stop] is called on the controller of [main] only *)

Lemma only_stops_app (l : list Event) (e : Event) :
  only_stops c l -> (forall x, e = Stop x -> x = c) -> only_stops c (l ++ [e])%list.
Proof.
  intros Hl He x Hin. apply in_app_iff in Hin. destruct Hin as [Hin|[Hin|[]]].
  - now apply Hl.
  - now apply He.
Qed.

Lemma step_own (a : Action) (m : Machine) : own c m -> own c (step c a m).
Proof.
  intros (Hg & Hh & Hp & He). unfold step.
  destruct (fault m); [now repeat split|].
  destruct a.
  - repeat split; simpl; try assumption.
    intros x [Hx|Hx]; [discriminate | now apply Hh].
  - destruct (handlers m) as [|pc outer] eqn:Eh.
    + unfold main_step. destruct (main_pc m) as [|x| |x] eqn:Ep.
      * repeat split; simpl; try assumption; rewrite ?Eh; try easy.
        now intros x [= <-].
      * repeat split; simpl; rewrite ?Eh; try easy.
        intros y [= <-]. now apply Hp.
      * destruct (CONTROLLER (world m)) as [x|] eqn:Eg;
          repeat split; simpl; rewrite ?Eh, ?Eg, ?Ep; try easy.
        apply only_stops_app; [assumption | discriminate].
      * repeat split; simpl; rewrite ?Eh, ?Ep; try easy.
    + assert (Hout : forall x, In (line_132_call x) outer -> x = c).
      { intros x Hx. apply Hh. now right. }
      destruct pc as [| | |x|]; simpl.
      * repeat split; simpl; try assumption.
        -- intros x [Hx|Hx]; [discriminate | now apply Hout].
        -- apply only_stops_app; [assumption | discriminate].
      * destruct (CONTROLLER (world m)) as [x|] eqn:Eg;
          repeat split; simpl; rewrite ?Eg; try assumption; try easy.
        intros y [Hy|Hy]; [discriminate | now apply Hout].
      * destruct (CONTROLLER (world m)) as [x|] eqn:Eg;
          repeat split; simpl; rewrite ?Eg, ?Eh; try assumption; try easy.
        intros y [Hy|Hy]; [|now apply Hout].
        injection Hy as <-. now apply Hg.
      * repeat split; simpl; try assumption.
        -- intros y [Hy|Hy]; [discriminate | now apply Hout].
        -- apply only_stops_app; [assumption|].
           intros y [= <-]. apply Hh. now left.
      * repeat split; simpl; try assumption; easy.
Qed.

Lemma run_own (schedule : list Action) (m : Machine) :
  own c m -> own c (run_schedule c schedule m).
Proof.
  revert m. induction schedule as [|a schedule IH]; intros m Hm; simpl.
  - exact Hm.
  - apply IH. now apply step_own.
Qed.

Lemma boot_own : own c boot.
Proof. repeat split; simpl; easy. Qed.

(** *** One activation at a time calls [stop] at most once in all *)

Lemma serial_at_most_once (m : Machine) :
  serial m -> stop_count (events (world m)) <= 1.
Proof.
  unfold serial, quiet.
  destruct (handlers m) as [|[| | |x|] [|pc' outer]]; intuition lia.
Qed.

Lemma step_serial (a : Action) (m : Machine) :
  serial m ->
  match a, handlers m with
  | Deliver, _ :: _ => False
  | _, _ => True
  end ->
  serial (step c a m).
Proof.
  intros Hm Ha. unfold step.
  destruct (fault m); [exact Hm|].
  destruct a.
  - unfold serial in *. simpl.
    destruct (handlers m) as [|pc outer]; [exact Hm | contradiction].
  - clear Ha. destruct (handlers m) as [|pc outer] eqn:Eh.
    + unfold serial in Hm. rewrite Eh in Hm. unfold quiet, published in Hm.
      unfold main_step, serial, quiet, published.
      destruct (main_pc m) as [|x| |x] eqn:Ep; simpl; rewrite ?Eh, ?Ep.
      * simpl. intuition congruence.
      * simpl. left. intuition congruence.
      * destruct (CONTROLLER (world m)) as [x|] eqn:Eg; simpl;
          rewrite ?Eh, ?Ep, ?Eg, ?stop_count_app; simpl.
        -- rewrite !Nat.add_0_r. intuition congruence.
        -- intuition congruence.
      * intuition congruence.
    + unfold serial in Hm. rewrite Eh in Hm.
      destruct outer as [|pc' outer];
        [|destruct pc; contradiction].
      unfold serial, quiet, published in *.
      destruct pc as [| | |x|]; simpl.
      * rewrite stop_count_app. simpl. rewrite Nat.add_0_r. exact Hm.
      * destruct (CONTROLLER (world m)) as [x|] eqn:Eg; simpl; rewrite ?Eg.
        -- intuition congruence.
        -- exact Hm.
      * destruct (CONTROLLER (world m)) as [x|] eqn:Eg; simpl; rewrite ?Eh.
        -- exact Hm.
        -- exact Hm.
      * rewrite stop_count_app. simpl. intuition lia.
      * right. intuition.
Qed.

Lemma run_serial (schedule : list Action) (m : Machine) :
  serial m ->
  one_at_a_time c schedule m = true ->
  serial (run_schedule c schedule m).
Proof.
  revert m. induction schedule as [|a schedule IH]; intros m Hm Hs; simpl.
  - exact Hm.
  - simpl in Hs. apply IH.
    + apply step_serial; [exact Hm|].
      destruct a, (handlers m); try exact I. discriminate.
    + destruct a, (handlers m); try exact Hs. discriminate.
Qed.

Lemma boot_serial : serial boot.
Proof. left. split; [reflexivity | now right]. Qed.

End Invariants.

(** C9, as stated, fails.  Nothing guards the global [CONTROLLER]: when a
    second signal is delivered after the first handler has evaluated
    [CONTROLLER.stop] and before it calls it, the second handler stops
    the controller and clears the global, and the first one, resumed,
    stops the same controller again. *)
Lemma C9_unprotected_reference_counterexample :
  events (world (run_schedule example_controller nested_schedule boot))
  = [Run example_controller;
     Log INFO "Stopping controller..."; Log INFO "Stopping controller...";
     Stop example_controller; Stop example_controller]
  /\ stop_count (events (world (run_schedule example_controller nested_schedule boot)))
     = 2
  /\ fault (run_schedule example_controller nested_schedule boot) = None.
Proof. repeat apply conj; reflexivity. Qed.

(** With the second signal one step earlier the first handler finds the
    global cleared under its feet and fails. *)
Example stale_schedule_faults :
  fault (run_schedule example_controller stale_schedule boot)
  = Some (Exn AttributeError "'NoneType' object has no attribute 'stop'")
  /\ stop_count (events (world (run_schedule example_controller stale_schedule boot)))
     = 1.
Proof. split; reflexivity. Qed.

(** C9, amended.  The reference is a plain global that [main] and the
    handler read and write with no lock, atomic handle or channel.
    Under every interleaving of [main] with deliveries of the signal,
    [stop] is called on no controller but the one [main] constructed,
    and at most once for each delivery; when no signal is delivered
    while an earlier activation of the handler is still in progress,
    [stop] is called at most once in all. *)
Theorem C9_unprotected_reference (c : Controller) (schedule : list Action) :
  (forall x, In (Stop x) (events (world (run_schedule c schedule boot))) -> x = c)
  /\ stop_count (events (world (run_schedule c schedule boot)))
     <= deliveries schedule
  /\ (one_at_a_time c schedule boot = true ->
      stop_count (events (world (run_schedule c schedule boot))) <= 1).
Proof.
  repeat apply conj.
  - apply (run_own c schedule boot (boot_own c)).
  - pose proof (run_budget c schedule boot) as H. simpl in H. lia.
  - intros Hserial. apply serial_at_most_once.
    now apply run_serial; [apply boot_serial|].
Qed.

(** Two signals, the second one after the first handler has returned. *)
Lemma C9_unprotected_reference_example :
  one_at_a_time example_controller
    [Tick; Tick; Tick; Deliver; Tick; Tick; Tick; Tick; Tick; Deliver; Tick; Tick]
    boot = true
  /\ stop_count
       (events (world (run_schedule example_controller
          [Tick; Tick; Tick; Deliver; Tick; Tick; Tick; Tick; Tick; Deliver; Tick; Tick]
          boot))) <= 1.
Proof.
  split; [reflexivity|].
  destruct (C9_unprotected_reference example_controller
    [Tick; Tick; Tick; Deliver; Tick; Tick; Tick; Tick; Tick; Deliver; Tick; Tick])
    as (_ & _ & Hserial).
  exact (Hserial eq_refl).
Defined.

End SignalFacts.

(** * More properties of the module *)

(** ** Decimal text of integers *)

Section DecimalFacts.

Import PyStr.

(** The digits of a text read as a number, continuing from [acc]. *)
Lemma digit_char_is_digit (d : Z) :
  (0 <= d < 10)%Z ->
  is_digit (PyInt.digit_char d) = true
  /\ digit_value (PyInt.digit_char d) = d.
Proof.
  intros Hd.
  assert (H : In d [0; 1; 2; 3; 4; 5; 6; 7; 8; 9]%Z).
  { simpl. lia. }
  simpl in H.
  repeat (destruct H as [<-|H]; [split; reflexivity|]). contradiction.
Qed.

Lemma is_digit_not_underscore (c : ascii) :
  is_digit c = true -> Ascii.eqb c underscore = false.
Proof.
  intros H. destruct (Ascii.eqb c underscore) eqn:E; [|reflexivity].
  apply Ascii.eqb_eq in E. subst c. discriminate.
Qed.

Lemma is_digit_not_space (c : ascii) : is_digit c = true -> is_space c = false.
Proof.
  unfold is_digit, is_space. intros H.
  apply andb_true_iff in H. destruct H as [H1 H2].
  apply Nat.leb_le in H1. apply Nat.leb_le in H2.
  repeat rewrite orb_false_iff. repeat split.
  - apply andb_false_iff. right. apply Nat.leb_gt. lia.
  - apply Nat.eqb_neq. lia.
  - apply Nat.eqb_neq. lia.
  - apply Nat.eqb_neq. lia.
Qed.

(** Scanning the digits of [n] that stand before the end of the text, or
    before more digits, continues with [acc] shifted and [n] added. *)
Lemma scan_one_digit (d : Z) (prev : ascii) (k : nat) (acc : Z) (tail : string) :
  (0 <= d < 10)%Z ->
  scan_digits prev k acc (String (PyInt.digit_char d) tail)
  = scan_digits (PyInt.digit_char d) (S k) (acc * 10 + d) tail.
Proof.
  intros Hd. destruct (digit_char_is_digit d Hd) as [Hdigit Hvalue].
  cbn [scan_digits]. now rewrite Hdigit, Hvalue.
Qed.

Lemma to_digits_step (fuel : nat) (n : Z) (tail : string) :
  PyInt.to_digits (S fuel) n tail
  = if (n <? 10)%Z then String (PyInt.digit_char (n mod 10)) tail
    else PyInt.to_digits fuel (n / 10) (String (PyInt.digit_char (n mod 10)) tail).
Proof. reflexivity. Qed.

Lemma scan_to_digits (fuel : nat) :
  forall (n : Z) (tail : string) (prev : ascii) (k : nat),
    (0 <= n < 2 ^ Z.of_nat (S fuel))%Z ->
    exists (shift : Z) (last : ascii) (k' : nat),
      (forall acc',
         scan_digits prev k acc' (PyInt.to_digits (S fuel) n tail)
         = scan_digits last (k' + k) (acc' * shift + n) tail)
      /\ is_digit last = true /\ (0 < k')%nat
      /\ String.length (PyInt.to_digits (S fuel) n tail)
         = (k' + String.length tail)%nat
      /\ exists first rest, PyInt.to_digits (S fuel) n tail = String first rest
                            /\ is_digit first = true.
Proof.
  assert (Hsmall : forall (n : Z) (tail : string) (prev : ascii) (k : nat),
             (0 <= n < 10)%Z ->
             exists (shift : Z) (last : ascii) (k' : nat),
               (forall acc',
                  scan_digits prev k acc' (String (PyInt.digit_char (n mod 10)) tail)
                  = scan_digits last (k' + k) (acc' * shift + n) tail)
               /\ is_digit last = true /\ (0 < k')%nat
               /\ String.length (String (PyInt.digit_char (n mod 10)) tail)
                  = (k' + String.length tail)%nat
               /\ exists first rest,
                    String (PyInt.digit_char (n mod 10)) tail = String first rest
                    /\ is_digit first = true).
  { intros n tail prev k Hn.
    rewrite Z.mod_small by lia.
    destruct (digit_char_is_digit n Hn) as [Hd _].
    exists 10%Z, (PyInt.digit_char n), 1%nat.
    split; [|split; [exact Hd | split; [lia | split; [reflexivity|]]]].
    - intros acc'. now rewrite scan_one_digit.
    - exists (PyInt.digit_char n), tail. split; [reflexivity | exact Hd]. }
  induction fuel as [|fuel IH]; intros n tail prev k Hn;
    rewrite to_digits_step; destruct (n <? 10)%Z eqn:Hlt.
  - apply Z.ltb_lt in Hlt. apply Hsmall. lia.
  - apply Z.ltb_ge in Hlt. change (2 ^ Z.of_nat 1)%Z with 2%Z in Hn. lia.
  - apply Z.ltb_lt in Hlt. apply Hsmall. lia.
  - apply Z.ltb_ge in Hlt.
    assert (Hmod : (0 <= n mod 10 < 10)%Z) by (apply Z.mod_pos_bound; lia).
    assert (Hdiv : (0 <= n / 10 < 2 ^ Z.of_nat (S fuel))%Z).
    { split; [apply Z.div_pos; lia|].
      apply Z.div_lt_upper_bound; [lia|].
      replace (Z.of_nat (S (S fuel))) with (Z.succ (Z.of_nat (S fuel))) in Hn by lia.
      rewrite Z.pow_succ_r in Hn by lia. lia. }
    destruct (IH (n / 10)%Z (String (PyInt.digit_char (n mod 10)) tail)
                prev k Hdiv)
      as (shift & last & k' & Hscan & Hlast & Hk' & Hlen & first & rest & Hfirst & Hfd).
    destruct (digit_char_is_digit (n mod 10) Hmod) as [Hd _].
    exists (shift * 10)%Z, (PyInt.digit_char (n mod 10)), (S k').
    split; [|split; [exact Hd | split; [lia | split]]].
    + intros acc'. rewrite Hscan, scan_one_digit by assumption.
      f_equal. pose proof (Z.div_mod n 10 ltac:(lia)). lia.
    + rewrite Hlen. cbn [String.length]. lia.
    + exists first, rest. split; assumption.
Qed.

Lemma log2_bound (n : Z) :
  (0 <= n)%Z -> (0 <= n < 2 ^ Z.of_nat (S (Z.to_nat (Z.log2 n))))%Z.
Proof.
  intros Hn. split; [assumption|].
  replace (Z.of_nat (S (Z.to_nat (Z.log2 n)))) with (Z.succ (Z.log2 n))
    by (pose proof (Z.log2_nonneg n); lia).
  destruct (Z.eq_dec n 0) as [->|Hne]; [reflexivity|].
  apply Z.log2_spec. lia.
Qed.

(** The digits of a natural number scan back to it, to the end, and
    as many digits are counted as there are. *)
Lemma scan_decimal_natural (n : Z) :
  (0 <= n)%Z ->
  exists first rest digits,
    PyInt.decimal_natural n = String first rest /\ is_digit first = true
    /\ scan_digits Ascii.zero 0 0 (PyInt.decimal_natural n)
       = Some (n, S digits, EmptyString)
    /\ String.length (PyInt.decimal_natural n) = S digits.
Proof.
  intros Hn. unfold PyInt.decimal_natural.
  destruct (scan_to_digits _ n EmptyString Ascii.zero 0 (log2_bound n Hn))
    as (shift & last & k' & Hscan & Hlast & Hk' & Hlen & first & rest & Hfirst & Hfd).
  destruct k' as [|k']; [lia|].
  exists first, rest, (k' + 0)%nat.
  split; [exact Hfirst | split; [exact Hfd | split]].
  - rewrite Hscan. cbn [scan_digits].
    rewrite (is_digit_not_underscore last Hlast). reflexivity.
  - rewrite Hlen. reflexivity.
Qed.

Lemma is_digit_not_sign (c : ascii) :
  is_digit c = true -> Ascii.eqb c "+" = false /\ Ascii.eqb c "-" = false.
Proof.
  intros H. split.
  - destruct (Ascii.eqb c "+") eqn:E; [|reflexivity].
    apply Ascii.eqb_eq in E. subst c. discriminate.
  - destruct (Ascii.eqb c "-") eqn:E; [|reflexivity].
    apply Ascii.eqb_eq in E. subst c. discriminate.
Qed.

(** [int] on a text that starts with a digit, or with a sign and then
    a digit, and scans to its end within the bound on digits. *)
Lemma int_of_scanned (sign : Z) (prefix body : string) (first : ascii)
    (rest : string) (n : Z) (digits : nat) :
  body = String first rest ->
  is_digit first = true ->
  scan_digits Ascii.zero 0 0 body = Some (n, S digits, EmptyString) ->
  (S digits <= max_str_digits)%nat ->
  (prefix = EmptyString /\ sign = 1%Z) \/ (prefix = "-" /\ sign = (-1)%Z) ->
  PyStr.int (prefix ++ body) = Some (sign * n)%Z.
Proof.
  intros Hbody Hfirst Hscan Hbound Hprefix.
  destruct (is_digit_not_sign first Hfirst) as [Hplus Hminus].
  pose proof (is_digit_not_underscore first Hfirst) as Hunder.
  unfold underscore in Hunder.
  pose proof (is_digit_not_space first Hfirst) as Hspace.
  apply Nat.ltb_ge in Hbound.
  unfold PyStr.int.
  destruct Hprefix as [[-> ->] | [-> ->]].
  - change (EmptyString ++ body) with body. rewrite Hbody.
    cbn [skip_spaces]. rewrite Hspace, Hplus, Hminus.
    cbn [startswith]. rewrite Hunder. rewrite <- Hbody, Hscan.
    cbn [Nat.eqb]. rewrite Hbound. cbn [skip_spaces]. reflexivity.
  - change ("-" ++ body) with (String "-" body).
    cbn [skip_spaces]. change (is_space "-") with false. cbv iota.
    change (Ascii.eqb "-" "+") with false. change (Ascii.eqb "-" "-") with true.
    cbv iota. rewrite Hbody. cbn [startswith]. rewrite Hunder.
    rewrite <- Hbody, Hscan. cbn [Nat.eqb]. rewrite Hbound.
    cbn [skip_spaces]. reflexivity.
Qed.

(** [int] reads back the decimal text of every integer that [str]
    converts. *)
Lemma int_decimal (z : Z) :
  (PyInt.digit_count z <= max_str_digits)%nat ->
  PyStr.int (PyInt.decimal z) = Some z.
Proof.
  unfold PyInt.decimal, PyInt.digit_count. intros Hbound.
  destruct (z <? 0)%Z eqn:Hz.
  - apply Z.ltb_lt in Hz. rewrite Z.abs_neq in Hbound by lia.
    destruct (scan_decimal_natural (- z) ltac:(lia))
      as (first & rest & digits & Hs & Hfd & Hscan & Hlen).
    rewrite Hlen in Hbound.
    change (String "-" (PyInt.decimal_natural (- z)))
      with ("-" ++ PyInt.decimal_natural (- z)).
    rewrite (int_of_scanned (-1) "-" _ first rest (- z) digits Hs Hfd Hscan Hbound)
      by (right; split; reflexivity).
    f_equal. lia.
  - apply Z.ltb_ge in Hz. rewrite Z.abs_eq in Hbound by lia.
    destruct (scan_decimal_natural z Hz)
      as (first & rest & digits & Hs & Hfd & Hscan & Hlen).
    rewrite Hlen in Hbound.
    change (PyInt.decimal_natural z) with (EmptyString ++ PyInt.decimal_natural z).
    rewrite (int_of_scanned 1 EmptyString _ first rest z digits Hs Hfd Hscan Hbound)
      by (left; split; reflexivity).
    f_equal. lia.
Qed.

(** What [str] returns is read back by [int]. *)
Lemma int_str (z : Z) (text : string) :
  PyInt.str z = Some text -> PyStr.int text = Some z.
Proof.
  unfold PyInt.str.
  destruct (max_str_digits <? PyInt.digit_count z)%nat eqn:Hbound; [discriminate|].
  intros [= <-]. apply int_decimal. now apply Nat.ltb_ge.
Qed.

(** The text of an integer holds no colon. *)
Lemma to_digits_free (c : ascii) (fuel : nat) :
  is_digit c = false ->
  forall n tail,
    contains c (PyInt.to_digits fuel n tail) = contains c tail.
Proof.
  intros Hc. induction fuel as [|fuel IH]; intros n tail; [reflexivity|].
  cbn [PyInt.to_digits].
  assert (Hmod : (0 <= n mod 10 < 10)%Z) by (apply Z.mod_pos_bound; lia).
  destruct (digit_char_is_digit (n mod 10) Hmod) as [Hd _].
  assert (Hstep : contains c (String (PyInt.digit_char (n mod 10)) tail)
                  = contains c tail).
  { cbn [contains]. now rewrite (eqb_both _ c is_digit Hd Hc). }
  destruct (n <? 10)%Z; [exact Hstep|]. now rewrite IH.
Qed.

Lemma decimal_free (c : ascii) (z : Z) :
  is_digit c = false -> Ascii.eqb c "-" = false ->
  contains c (PyInt.decimal z) = false.
Proof.
  intros Hc Hminus. unfold PyInt.decimal, PyInt.decimal_natural.
  destruct (z <? 0)%Z; cbn [contains];
    rewrite ?(Ascii.eqb_sym "-"%char c), ?Hminus, to_digits_free by assumption;
    reflexivity.
Qed.

End DecimalFacts.

(** ** The address parser, beyond the claims *)

Section ParserExtras.

Import PyStr.

Lemma free_of_Forall (c : ascii) (l : list string) :
  free_of c l = true <-> Forall (fun name => contains c name = false) l.
Proof.
  unfold free_of. rewrite forallb_forall, Forall_forall.
  split; intros H name Hin; specialize (H name Hin).
  - now apply negb_true_iff.
  - now apply negb_true_iff.
Qed.

Lemma contains_concat (c sep : ascii) (l : list string) :
  Ascii.eqb sep c = false ->
  free_of c l = true ->
  contains c (String.concat (String sep EmptyString) l) = false.
Proof.
  intros Hsep Hfree. apply free_of_Forall in Hfree.
  induction Hfree as [|name l Hname Hl IH]; [reflexivity|].
  destruct l as [|name' l]; [exact Hname|].
  change (String.concat (String sep EmptyString) (name :: name' :: l))
    with (name ++ String sep (String.concat (String sep EmptyString) (name' :: l))).
  rewrite contains_append, Hname. cbn [contains orb]. now rewrite Hsep.
Qed.

(** X1.  Reading back what [address] writes: for names, host and port
    that are well formed, whatever the integer of the port that [str()]
    converts, the parser returns these names, this host and this port;
    without a port it returns the legacy port, or 23. *)
Theorem X1_address_round_trip (args : Args) (parser : ArgumentParser) (w : World)
    (names : option (list string)) (h : string) (p : option Z) :
  host args = address names h p ->
  well_formed names h p = true ->
  fst (parse_tn3270_host_args args parser w)
  = Return (h, resolved_port p (port args), names).
Proof.
  intros Hhost Hwf. unfold well_formed in Hwf.
  apply andb_true_iff in Hwf. destruct Hwf as [Hnames Hport].
  set (prefix := match names with
                 | Some l => String.concat "," l ++ "@"
                 | None => EmptyString
                 end).
  assert (Hfirst : cut_at_first "@" (prefix ++ h)
                     (option_map (String.concat ",") names) h).
  { unfold prefix. destruct names as [l|]; cbn [option_map].
    - rewrite append_assoc. apply cut_first_found; [reflexivity|].
      apply andb_true_iff in Hnames. destruct Hnames as [Hnames _].
      apply andb_true_iff in Hnames. destruct Hnames as [_ Hat].
      now apply contains_concat.
    - apply cut_first_absent. now apply negb_true_iff. }
  assert (Hlus : option_map (split "," None) (option_map (String.concat ",") names)
                 = names).
  { destruct names as [l|]; [|reflexivity]. cbn [option_map]. f_equal.
    apply andb_true_iff in Hnames. destruct Hnames as [Hnames _].
    apply andb_true_iff in Hnames. destruct Hnames as [Hnames _].
    apply andb_true_iff in Hnames. destruct Hnames as [Hne Hcomma].
    apply split_concat.
    - destruct l; [discriminate | discriminate].
    - now apply free_of_Forall. }
  assert (Htext : host args
                  = prefix ++ h ++ match p with
                                   | Some n => ":" ++ PyInt.decimal n
                                   | None => EmptyString
                                   end).
  { rewrite Hhost. unfold address, prefix. reflexivity. }
  destruct p as [n|].
  - rewrite (parse_good args parser w (prefix ++ h) (Some (PyInt.decimal n)) (Some n)
               (option_map (String.concat ",") names) h).
    + cbn [fst]. now rewrite Hlus.
    + rewrite Htext, <- append_assoc. apply cut_last_found; [reflexivity|].
      now apply decimal_free.
    + split; [|discriminate]. apply int_decimal.
      unfold PyInt.str in Hport.
      destruct (max_str_digits <? PyInt.digit_count n)%nat eqn:Hbound;
        [discriminate | now apply Nat.ltb_ge].
    + exact Hfirst.
  - rewrite (parse_good args parser w (prefix ++ h) None None
               (option_map (String.concat ",") names) h).
    + cbn [fst]. now rewrite Hlus.
    + rewrite Htext, append_empty_r. apply cut_last_absent.
      apply negb_true_iff in Hport.
      rewrite contains_append, Hport, orb_false_r.
      unfold prefix. destruct names as [l|]; [|reflexivity].
      rewrite contains_append. cbn [contains].
      change (Ascii.eqb "@" ":") with false. cbv iota. rewrite orb_false_r.
      apply andb_true_iff in Hnames. destruct Hnames as [_ Hcolon].
      now apply contains_concat.
    + reflexivity.
    + exact Hfirst.
Qed.

Lemma X1_address_round_trip_example :
  fst (parse_tn3270_host_args
         (tn3270_args (address (Some ["lu1"; "lu2"]) "mainframe" (Some 3270%Z)) None)
         example_parser initial_world)
  = Return ("mainframe", 3270%Z, Some ["lu1"; "lu2"]).
Proof.
  exact (X1_address_round_trip
           (tn3270_args (address (Some ["lu1"; "lu2"]) "mainframe" (Some 3270%Z)) None)
           example_parser initial_world
           (Some ["lu1"; "lu2"]) "mainframe" (Some 3270%Z) eq_refl eq_refl).
Defined.

(** Every run of the parser, sorted by the two cuts of its input. *)
Lemma parse_total (args : Args) (parser : ArgumentParser) (w : World) :
  exists rest token lus h,
    cut_at_last ":" (host args) rest token
    /\ cut_at_first "@" rest lus h
    /\ ((exists t, token = Some t /\ PyStr.int t = None
                   /\ parse_tn3270_host_args args parser w
                      = (Raise (Exn SystemExit
                                  ("argument host: invalid port value: " ++ t)), w))
        \/ (exists embedded,
               match token with
               | Some t => PyStr.int t = embedded /\ embedded <> None
               | None => embedded = None
               end
               /\ parse_tn3270_host_args args parser w
                  = (Return (h, resolved_port embedded (port args),
                             option_map (split "," None) lus),
                     after w (notices embedded (port args))))).
Proof.
  destruct (cut_at_last_total ":" (host args)) as (rest & token & Hlast).
  destruct (cut_at_first_total "@" rest) as (lus & h & Hfirst).
  exists rest, token, lus, h. split; [exact Hlast | split; [exact Hfirst|]].
  assert (Hgood : forall embedded,
             match token with
             | Some t => PyStr.int t = embedded /\ embedded <> None
             | None => embedded = None
             end ->
             exists embedded0,
               match token with
               | Some t => PyStr.int t = embedded0 /\ embedded0 <> None
               | None => embedded0 = None
               end
               /\ parse_tn3270_host_args args parser w
                  = (Return (h, resolved_port embedded0 (port args),
                             option_map (split "," None) lus),
                     after w (notices embedded0 (port args)))).
  { intros embedded Hemb. exists embedded. split; [exact Hemb|].
    now apply (parse_good args parser w rest token embedded lus h). }
  destruct token as [t|].
  - destruct (PyStr.int t) as [p|] eqn:Hint.
    + right. apply (Hgood (Some p)). split; [reflexivity | discriminate].
    + left. exists t. split; [reflexivity | split; [exact Hint|]].
      now apply (parse_bad_port args parser w rest t).
  - right. now apply (Hgood None).
Qed.

(** X2.  The parser fails in one way only: through [parser.error], with
    the message that names the port token, and then it has logged
    nothing and changed nothing.  No index of lines 101-122 is ever out
    of range. *)
Theorem X2_parser_fails_through_parser_error (args : Args)
    (parser : ArgumentParser) (w : World) (e : exn) :
  fst (parse_tn3270_host_args args parser w) = Raise e ->
  exn_class e = SystemExit
  /\ snd (parse_tn3270_host_args args parser w) = w
  /\ exists rest token,
       cut_at_last ":" (host args) rest (Some token)
       /\ PyStr.int token = None
       /\ exn_message e = "argument host: invalid port value: " ++ token.
Proof.
  intros Hraise.
  destruct (parse_total args parser w)
    as (rest & token & lus & h & Hlast & Hfirst
        & [(t & -> & Hint & Hrun) | (embedded & Hemb & Hrun)]);
    rewrite Hrun in *; cbn [fst snd] in *.
  - injection Hraise as <-. cbn [exn_class exn_message].
    split; [reflexivity | split; [reflexivity|]].
    exists rest, t. now repeat split.
  - discriminate Hraise.
Qed.

Lemma X2_parser_fails_through_parser_error_example :
  exn_class (Exn SystemExit "argument host: invalid port value: 80a") = SystemExit
  /\ snd (parse_tn3270_host_args (tn3270_args "host:80a" (Some 23%Z))
            example_parser initial_world) = initial_world.
Proof.
  destruct (X2_parser_fails_through_parser_error
              (tn3270_args "host:80a" (Some 23%Z)) example_parser initial_world
              (Exn SystemExit "argument host: invalid port value: 80a") eq_refl)
    as (Hclass & Hworld & _).
  exact (conj Hclass Hworld).
Defined.

Lemma split_keeps_absent (c sep : ascii) (s : string) :
  contains c s = false ->
  Forall (fun name => contains c name = false) (split sep None s).
Proof.
  induction s as [|a s IH]; intros H.
  - repeat constructor.
  - cbn [contains] in H. destruct (Ascii.eqb a c) eqn:E; [discriminate|].
    specialize (IH H). cbn [split option_map].
    destruct (Ascii.eqb a sep).
    + constructor; [reflexivity | exact IH].
    + destruct (split sep None s) as [|piece pieces] eqn:Es.
      { now apply split_nonempty in Es. }
      apply Forall_cons_iff in IH. destruct IH as [Hp Hps].
      constructor; [|exact Hps]. cbn [contains]. now rewrite E.
Qed.

(** X3.  Nothing of the input is lost or invented: when the parser
    returns, the names joined by commas, an [@], the host and, when
    there is one, the colon and the port token make up the input again;
    the names, when present, are at least one and none holds a comma or
    an [@]. *)
Theorem X3_parser_result_reassembles (args : Args) (parser : ArgumentParser)
    (w : World) (h : string) (p : Z) (names : option (list string)) :
  fst (parse_tn3270_host_args args parser w) = Return (h, p, names) ->
  (exists tail,
      host args = address names h None ++ tail
      /\ (tail = EmptyString
          \/ exists token, tail = ":" ++ token /\ PyStr.int token = Some p
                           /\ contains ":" token = false))
  /\ (forall l, names = Some l ->
        l <> [] /\ free_of "," l = true /\ free_of "@" l = true).
Proof.
  intros Hret.
  destruct (parse_total args parser w)
    as (rest & token & lus & h0 & Hlast & Hfirst
        & [(t & -> & Hint & Hrun) | (embedded & Hemb & Hrun)]);
    rewrite Hrun in Hret; cbn [fst] in Hret; [discriminate Hret|].
  injection Hret as <- <- <-.
  assert (Hrest : rest = address (option_map (split "," None) lus) h0 None).
  { unfold address. rewrite append_empty_r.
    destruct Hfirst as [l r Hs Hl|Hc]; cbn [option_map].
    - destruct (split_pieces "," l) as [_ Hjoin]. rewrite Hjoin.
      now rewrite append_assoc.
    - reflexivity. }
  split.
  - destruct Hlast as [pre tok Hs Hc|Hc].
    + exists (":" ++ tok). split; [now rewrite <- Hrest|].
      right. exists tok. destruct Hemb as [Hint Hne].
      destruct embedded as [q|]; [|congruence].
      now repeat split.
    + exists EmptyString. split; [now rewrite append_empty_r | now left].
  - intros l Hl. destruct Hfirst as [before r Hs Hb|Hc]; [|discriminate Hl].
    cbn [option_map] in Hl. injection Hl as <-.
    split; [apply split_nonempty|].
    split; apply free_of_Forall.
    + apply (split_pieces "," before).
    + now apply split_keeps_absent.
Qed.

Lemma X3_parser_result_reassembles_example :
  exists tail,
    "a,b@c@d:5" = address (Some ["a"; "b"]) "c@d" None ++ tail
    /\ (tail = EmptyString
        \/ exists token, tail = ":" ++ token /\ PyStr.int token = Some 5%Z
                         /\ contains ":" token = false).
Proof.
  destruct (X3_parser_result_reassembles (tn3270_args "a,b@c@d:5" None)
              example_parser initial_world "c@d" 5%Z (Some ["a"; "b"]) eq_refl)
    as [Htail _].
  exact Htail.
Defined.

(** X4.  The parser writes to the log exactly when a legacy port comes
    with an input that parses, and then one deprecation notice only; it
    never touches the global [CONTROLLER]. *)
Theorem X4_parser_notices (args : Args) (parser : ArgumentParser) (w : World) :
  exists new,
    snd (parse_tn3270_host_args args parser w) = after w new
    /\ (new = [] \/ new = [notice_use_host_port] \/ new = [notice_embedded_used])
    /\ (new <> [] <->
        port args <> None
        /\ exists result, fst (parse_tn3270_host_args args parser w) = Return result).
Proof.
  destruct (parse_total args parser w)
    as (rest & token & lus & h & Hlast & Hfirst
        & [(t & -> & Hint & Hrun) | (embedded & Hemb & Hrun)]);
    rewrite Hrun; cbn [fst snd].
  - exists []. split; [now rewrite after_nil | split; [now left|]].
    split; [congruence|]. intros [_ [result Hres]]. discriminate Hres.
  - exists (notices embedded (port args)). split; [reflexivity|].
    unfold notices.
    destruct (port args) as [q|], embedded as [e|]; (split; [tauto|]);
      split; try congruence; try (intros _; split; [discriminate | eauto]);
      intros [Hq _]; congruence.
Qed.

End ParserExtras.

Lemma X4_parser_notices_example :
  exists new,
    snd (parse_tn3270_host_args (tn3270_args "host:23" (Some 23%Z))
           example_parser initial_world) = after initial_world new
    /\ new <> [].
Proof.
  destruct (X4_parser_notices (tn3270_args "host:23" (Some 23%Z))
              example_parser initial_world) as (new & Hrun & _ & Hiff).
  exists new. split; [exact Hrun|]. apply Hiff.
  split; [discriminate | eexists; reflexivity].
Defined.

(** ** The device identifier, beyond the claims *)

Section DeviceExtras.

Context {ext : Externals}.

Lemma raise_eta {A} (e : exn) (w : World) :
  @raise A (exn_class e) (exn_message e) w = (Raise e, w).
Proof. now destruct e. Qed.

(** Every run of [_create_device], sorted by the answers of the
    terminal. *)
Lemma create_device_cases (args : Args) (interface : Interface)
    (device_address : DeviceAddress) (poll_response : PollResponse) (w : World) :
  _create_device args interface device_address poll_response w
  = match get_ids_reply interface device_address with
    | inl e => (Raise e, after w [GetIds interface device_address])
    | inr (terminal_id, extended_id) =>
        match type terminal_id with
        | DFT =>
            (Raise (Exn UnsupportedDeviceError "Only CUT type terminals are supported"),
             after w [GetIds interface device_address;
                      Log INFO ("Terminal ID = " ++ str_terminal_id terminal_id)])
        | CUT =>
            let asked := GetIds interface device_address
                         :: identification_log terminal_id extended_id
                         ++ [GetFeatures interface device_address] in
            match get_features_reply interface device_address with
            | inl e => (Raise e, after w asked)
            | inr features =>
                let keymap :=
                  _get_keymap (get_keyboard_description terminal_id extended_id) in
                let terminal :=
                  {| terminal_interface := interface;
                     terminal_device_address := device_address;
                     terminal_terminal_id := terminal_id;
                     terminal_extended_id := extended_id;
                     terminal_features := features;
                     terminal_keymap := keymap |} in
                (Return terminal,
                 after w (asked
                          ++ [Log INFO ("Features = " ++ str_features features);
                              Log INFO ("Keymap = " ++ keymap_name keymap);
                              NewTerminal terminal]))
            end
        end
    end.
Proof.
  unfold _create_device, get_ids, get_features, bind, logger_info, identification_log.
  rewrite !emit_after.
  destruct (get_ids_reply interface device_address) as [e|[terminal_id extended_id]].
  - now rewrite raise_eta.
  - cbn [ret]. rewrite !emit_after.
    destruct (type terminal_id); cbn [TerminalType_eqb negb].
    + rewrite !emit_after.
      destruct extended_id as [e|]; rewrite ?emit_after; cbn [ret];
        rewrite ?emit_after;
        (destruct (get_features_reply interface device_address) as [e'|features];
         [rewrite raise_eta | cbn [ret]; rewrite !emit_after];
         rewrite ?after_after; reflexivity).
    + unfold raise. now rewrite after_after.
Qed.

(** X5.  A failure of the identifier query is fatal and comes first:
    the exception of [get_ids] leaves [_create_device] as it is, after the
    one query and before anything is logged. *)
Theorem X5_get_ids_failure_propagates (args : Args) (interface : Interface)
    (device_address : DeviceAddress) (poll_response : PollResponse) (w : World)
    (e : exn) :
  get_ids_reply interface device_address = inl e ->
  _create_device args interface device_address poll_response w
  = (Raise e, after w [GetIds interface device_address]).
Proof. intros H. now rewrite create_device_cases, H. Qed.

(** X6.  A failure of the feature query of a CUT terminal is fatal too:
    the exception of [get_features] leaves [_create_device] as it is, the
    feature query is the last thing done, and no [Terminal] is built. *)
Theorem X6_get_features_failure_propagates (args : Args) (interface : Interface)
    (device_address : DeviceAddress) (poll_response : PollResponse) (w : World)
    (terminal_id : TerminalId) (extended_id : option ExtendedId) (e : exn) :
  get_ids_reply interface device_address = inr (terminal_id, extended_id) ->
  type terminal_id = CUT ->
  get_features_reply interface device_address = inl e ->
  _create_device args interface device_address poll_response w
  = (Raise e,
     after w (GetIds interface device_address
              :: identification_log terminal_id extended_id
              ++ [GetFeatures interface device_address]))
  /\ count_events is_NewTerminal
       (GetIds interface device_address
        :: identification_log terminal_id extended_id
        ++ [GetFeatures interface device_address]) = 0.
Proof.
  intros Hids Hkind Hfeatures.
  rewrite create_device_cases, Hids, Hkind, Hfeatures. split; [reflexivity|].
  unfold identification_log. now destruct extended_id.
Qed.

(** X7.  Whatever the terminal answers, [_create_device] sends the
    identifier query exactly once and first, the feature query at most
    once, builds at most one [Terminal], and builds one exactly when it
    returns one; the global [CONTROLLER] is left alone. *)
Theorem X7_query_discipline (args : Args) (interface : Interface)
    (device_address : DeviceAddress) (poll_response : PollResponse) (w : World) :
  exists rest,
    snd (_create_device args interface device_address poll_response w)
    = after w (GetIds interface device_address :: rest)
    /\ count_events is_GetIds rest = 0
    /\ count_events is_GetFeatures rest <= 1
    /\ count_events is_NewTerminal rest <= 1
    /\ (count_events is_NewTerminal rest = 1 <->
        exists terminal,
          fst (_create_device args interface device_address poll_response w)
          = Return terminal)
    /\ (forall terminal,
          fst (_create_device args interface device_address poll_response w)
          = Return terminal ->
          In (NewTerminal terminal) rest).
Proof.
  rewrite create_device_cases. unfold identification_log.
  destruct (get_ids_reply interface device_address) as [e|[terminal_id extended_id]].
  - exists []. cbn. repeat split; try lia; try discriminate.
    + intros [terminal H]. discriminate H.
  - destruct (type terminal_id).
    + destruct (get_features_reply interface device_address) as [e|features];
        destruct extended_id as [x|]; cbn [fst snd];
          eexists; (split; [reflexivity|]); cbn;
          repeat split; try lia; try discriminate; eauto;
          try (intros [terminal H]; discriminate H);
          try (intros terminal [= <-]; tauto).
    + eexists. split; [reflexivity|]. cbn.
      repeat split; try lia; try discriminate.
      intros [terminal H]. discriminate H.
Qed.

(** X8.  For a CUT terminal that answers both queries the device holds
    what was read and nothing else: the interface and address it was
    asked about, the identifiers and features of the replies, and the
    keymap that [_get_keymap] selects for the keyboard description; the
    log records follow the order of the source. *)
Theorem X8_device_holds_what_was_read (args : Args) (interface : Interface)
    (device_address : DeviceAddress) (poll_response : PollResponse) (w : World)
    (terminal_id : TerminalId) (extended_id : option ExtendedId)
    (features : Features) :
  get_ids_reply interface device_address = inr (terminal_id, extended_id) ->
  type terminal_id = CUT ->
  get_features_reply interface device_address = inr features ->
  let keymap := _get_keymap (get_keyboard_description terminal_id extended_id) in
  let terminal :=
    {| terminal_interface := interface;
       terminal_device_address := device_address;
       terminal_terminal_id := terminal_id;
       terminal_extended_id := extended_id;
       terminal_features := features;
       terminal_keymap := keymap |} in
  _create_device args interface device_address poll_response w
  = (Return terminal,
     after w (GetIds interface device_address
              :: identification_log terminal_id extended_id
              ++ [GetFeatures interface device_address;
                  Log INFO ("Features = " ++ str_features features);
                  Log INFO ("Keymap = " ++ keymap_name keymap);
                  NewTerminal terminal])).
Proof.
  intros Hids Hkind Hfeatures keymap terminal.
  rewrite create_device_cases, Hids, Hkind, Hfeatures. cbn zeta.
  unfold terminal, keymap. do 2 f_equal. cbn [app].
  now rewrite <- app_assoc.
Qed.

End DeviceExtras.

Lemma X5_get_ids_failure_propagates_example :
  @_create_device (failing_externals false) (tn3270_args "host" None)
    example_interface example_address example_poll_response initial_world
  = (Raise (Exn OtherError "receive timeout"),
     after initial_world [GetIds example_interface example_address]).
Proof.
  exact (@X5_get_ids_failure_propagates (failing_externals false)
           (tn3270_args "host" None) example_interface example_address
           example_poll_response initial_world
           (Exn OtherError "receive timeout") eq_refl).
Defined.

Lemma X6_get_features_failure_propagates_example :
  fst (@_create_device (failing_externals true) (tn3270_args "host" None)
         example_interface example_address example_poll_response initial_world)
  = Raise (Exn OtherError "receive timeout").
Proof.
  destruct (@X6_get_features_failure_propagates (failing_externals true)
              (tn3270_args "host" None) example_interface example_address
              example_poll_response initial_world
              {| type := CUT; terminal_id_value := 4 |} None
              (Exn OtherError "receive timeout") eq_refl eq_refl eq_refl)
    as [Hrun _].
  now rewrite Hrun.
Defined.

Lemma X7_query_discipline_example :
  exists rest,
    snd (@_create_device (example_externals "posix" CUT) (tn3270_args "host" None)
           example_interface example_address example_poll_response initial_world)
    = after initial_world (GetIds example_interface example_address :: rest)
    /\ count_events is_GetIds rest = 0
    /\ count_events is_GetFeatures rest <= 1.
Proof.
  destruct (@X7_query_discipline (example_externals "posix" CUT)
              (tn3270_args "host" None) example_interface example_address
              example_poll_response initial_world)
    as (rest & Hrun & Hids & Hfeatures & _).
  exists rest. now repeat split.
Defined.

Lemma X8_device_holds_what_was_read_example :
  fst (@_create_device (example_externals "posix" CUT) (tn3270_args "host" None)
         example_interface example_address example_poll_response initial_world)
  = Return example_terminal.
Proof.
  rewrite (@X8_device_holds_what_was_read (example_externals "posix" CUT)
             (tn3270_args "host" None) example_interface example_address
             example_poll_response initial_world
             {| type := CUT; terminal_id_value := 4 |} (Some "c1348300")
             {| features_handle := 0 |} eq_refl eq_refl eq_refl).
  reflexivity.
Defined.

(** ** The encoding validator and the keymap selector, beyond the claims *)

Section ValidatorExtras.

Context {ext : Externals}.

(** X9.  The validator translates [LookupError] and nothing else: an
    exception of the lookup that is no [LookupError] leaves the validator
    unchanged; a name comes back only if a codec was found, and it is the
    name given; in no case is the world changed. *)
Theorem X9_validator_translates_lookup_errors_only (encoding : string) (w : World) :
  snd (_get_character_encoding encoding w) = w
  /\ (forall e, codecs_lookup_reply encoding = Some e ->
        issubclass (exn_class e) LookupError = false ->
        fst (_get_character_encoding encoding w) = Raise e)
  /\ (forall name, fst (_get_character_encoding encoding w) = Return name ->
        name = encoding /\ codecs_lookup_reply encoding = None).
Proof.
  unfold _get_character_encoding, bind, try_except, codecs_lookup.
  destruct (codecs_lookup_reply encoding) as [e|] eqn:Hreply.
  - rewrite raise_eta. destruct (issubclass (exn_class e) LookupError) eqn:Hsub;
      cbn [fst snd raise].
    + split; [reflexivity | split].
      * intros e' [= <-]. congruence.
      * intros name H. discriminate H.
    + split; [reflexivity | split].
      * intros e' [= <-] _. reflexivity.
      * intros name H. discriminate H.
  - cbn [ret fst snd]. split; [reflexivity | split].
    + intros e H. discriminate H.
    + intros name [= <-]. now split.
Qed.

End ValidatorExtras.

Lemma X9_validator_translates_lookup_errors_only_example :
  fst (@_get_character_encoding (failing_externals true) "ibm037" initial_world)
  = Raise (Exn ValueError "embedded null character").
Proof.
  destruct (@X9_validator_translates_lookup_errors_only (failing_externals true)
              "ibm037" initial_world) as (_ & Hother & _).
  exact (Hother (Exn ValueError "embedded null character") eq_refl eq_refl).
Defined.

Section KeymapExtras.

Import PyStr.

(** X10.  The keymap says which family the description belongs to: the
    IBM typewriter keymap is selected only for a description that starts
    with [IBM-TYPEWRITER], the IBM enhanced keymap only for one that
    starts with [IBM-ENHANCED], and no description starts with two of the
    three prefixes, so the order of the tests decides nothing. *)
Theorem X10_keymap_names_the_family (description : string) :
  (_get_keymap description = KEYMAP_IBM_TYPEWRITER
   <-> exists tail, description = "IBM-TYPEWRITER" ++ tail)
  /\ (_get_keymap description = KEYMAP_IBM_ENHANCED
      <-> exists tail, description = "IBM-ENHANCED" ++ tail)
  /\ (_get_keymap description = KEYMAP_3278_TYPEWRITER
      <-> (forall tail, description <> "IBM-TYPEWRITER" ++ tail)
          /\ (forall tail, description <> "IBM-ENHANCED" ++ tail))
  /\ (startswith description "3278" && startswith description "IBM-TYPEWRITER" = false)
  /\ (startswith description "3278" && startswith description "IBM-ENHANCED" = false)
  /\ (startswith description "IBM-TYPEWRITER" && startswith description "IBM-ENHANCED"
      = false).
Proof.
  assert (H1 : startswith description "3278" = true ->
               startswith description "IBM-TYPEWRITER" = false
               /\ startswith description "IBM-ENHANCED" = false).
  { intros H. apply startswith_iff in H. destruct H as [tail ->]. now split. }
  assert (H2 : startswith description "IBM-TYPEWRITER" = true ->
               startswith description "IBM-ENHANCED" = false).
  { intros H. apply startswith_iff in H. destruct H as [tail ->]. reflexivity. }
  unfold _get_keymap. rewrite <- !startswith_iff.
  assert (Hno : forall p, (forall tail, description <> p ++ tail)
                          <-> startswith description p = false).
  { intros p. split; [apply not_startswith|].
    intros Hf tail ->. now rewrite startswith_append in Hf. }
  rewrite !Hno.
  destruct (startswith description "3278") eqn:E1;
    [destruct (H1 eq_refl) as [-> ->] |
     destruct (startswith description "IBM-TYPEWRITER") eqn:E2;
     [rewrite (H2 eq_refl) | destruct (startswith description "IBM-ENHANCED")]];
    cbn [andb]; repeat split; intros; try discriminate; try reflexivity;
      intuition discriminate.
Qed.

Lemma X10_keymap_names_the_family_example :
  exists tail, "IBM-ENHANCED-122" = "IBM-ENHANCED" ++ tail.
Proof.
  destruct (X10_keymap_names_the_family "IBM-ENHANCED-122") as (_ & [Honly _] & _).
  exact (Honly eq_refl).
Defined.

End KeymapExtras.

(** ** [main] and the constructors it hands to the controller *)

Section MainExtras.

Context {ext : Externals}.

(** X11.  The session of a TN3270 invocation is built from what the
    parser made of the host text, not from the text: the host, the
    resolved port and the names of the parser, with the encoding of the
    namespace.  When the parser fails, [main] fails the same way before
    any session is built. *)
Theorem X11_session_from_parsed_host (args : Args) (parser : ArgumentParser)
    (device : Terminal) (w : World) :
  emulator args = "tn3270" ->
  (forall h p names w',
     parse_tn3270_host_args args parser w = (Return (h, p, names), w') ->
     let session :=
       TN3270Session device h (Some p) names (character_encoding args) in
     main_then_session args parser device w
     = (Return session, after w' [NewSession session]))
  /\ (forall e w',
        parse_tn3270_host_args args parser w = (Raise e, w') ->
        main_then_session args parser device w = (Raise e, w')).
Proof.
  intros Hemulator.
  unfold main_then_session, main_parse_host, create_session, _create_session, bind.
  rewrite Hemulator. cbn [String.eqb Ascii.eqb Bool.eqb].
  split.
  - intros h p names w' ->. cbn [ret emulator].
    change (String.eqb "tn3270" "tn3270") with true. cbv beta iota.
    rewrite emit_after. reflexivity.
  - now intros e w' ->.
Qed.

(** X12.  [main] parses the host for the TN3270 emulator only: for any
    other emulator the namespace comes back as it is and nothing is
    logged.  After the parse the port of a TN3270 namespace is never
    missing, and only [host], [port] and [device_names] have changed. *)
Theorem X12_main_parse_host (args : Args) (parser : ArgumentParser) (w : World) :
  (emulator args <> "tn3270" -> main_parse_host args parser w = (Return args, w))
  /\ (forall resolved,
        emulator args = "tn3270" ->
        fst (main_parse_host args parser w) = Return resolved ->
        port resolved <> None
        /\ fst (parse_tn3270_host_args args parser w)
           = Return (host resolved,
                     match port resolved with Some p => p | None => 23%Z end,
                     device_names resolved)
        /\ serial_port resolved = serial_port args
        /\ emulator resolved = emulator args
        /\ character_encoding resolved = character_encoding args
        /\ command resolved = command args
        /\ command_args resolved = command_args args).
Proof.
  unfold main_parse_host, bind. split.
  - intros Hne. apply String.eqb_neq in Hne. now rewrite Hne.
  - intros resolved Heq. apply String.eqb_eq in Heq. rewrite Heq.
    destruct (parse_tn3270_host_args args parser w) as [[[[h p] names]|e] w'];
      cbn [fst ret]; [|discriminate].
    intros [= <-]. cbn. repeat split. discriminate.
Qed.

End MainExtras.

Lemma X11_session_from_parsed_host_example :
  fst (@main_then_session (example_externals "posix" CUT)
         (tn3270_args "lu1,lu2@host:9999" None) example_parser example_terminal
         initial_world)
  = Return (TN3270Session example_terminal "host" (Some 9999%Z)
              (Some ["lu1"; "lu2"]) "ibm037").
Proof.
  destruct (@X11_session_from_parsed_host (example_externals "posix" CUT)
              (tn3270_args "lu1,lu2@host:9999" None) example_parser
              example_terminal initial_world eq_refl) as [Hbuilt _].
  now rewrite (Hbuilt "host" 9999%Z (Some ["lu1"; "lu2"]) initial_world eq_refl).
Defined.

Lemma X12_main_parse_host_example :
  main_parse_host (vt100_args "sh" ["-l"]) example_parser initial_world
  = (Return (vt100_args "sh" ["-l"]), initial_world)
  /\ (forall resolved,
        fst (main_parse_host (tn3270_args "host" None) example_parser initial_world)
        = Return resolved ->
        port resolved <> None).
Proof.
  destruct (X12_main_parse_host (vt100_args "sh" ["-l"]) example_parser initial_world)
    as [Hother _].
  destruct (X12_main_parse_host (tn3270_args "host" None) example_parser initial_world)
    as [_ Hparsed].
  split.
  - apply Hother. discriminate.
  - intros resolved Hrun. exact (proj1 (Hparsed resolved eq_refl Hrun)).
Defined.

(** ** The parser and the legacy port *)

Section LegacyExtras.

Import PyStr.

(** X13.  The legacy port has a say in the port and the notice only:
    two namespaces with the same host text get the same host and the
    same names, and fail or succeed together, whatever their legacy
    ports. *)
Theorem X13_legacy_port_is_local (args args' : Args) (parser : ArgumentParser)
    (w : World) :
  host args' = host args ->
  match fst (parse_tn3270_host_args args parser w),
        fst (parse_tn3270_host_args args' parser w) with
  | Return (h, _, names), Return (h', _, names') => h' = h /\ names' = names
  | Raise e, Raise e' => e' = e
  | _, _ => False
  end.
Proof.
  intros Hhost.
  destruct (parse_total args parser w)
    as (rest & token & lus & h & Hlast & Hfirst
        & [(t & -> & Hint & Hrun) | (embedded & Hemb & Hrun)]).
  - rewrite Hrun.
    rewrite <- Hhost in Hlast.
    now rewrite (parse_bad_port args' parser w rest t Hlast Hint).
  - rewrite Hrun.
    rewrite <- Hhost in Hlast.
    rewrite (parse_good args' parser w rest token embedded lus h Hlast Hemb Hfirst).
    cbn [fst]. now split.
Qed.

Lemma X13_legacy_port_is_local_example :
  match fst (parse_tn3270_host_args (tn3270_args "lu@host" None)
               example_parser initial_world),
        fst (parse_tn3270_host_args (tn3270_args "lu@host" (Some 3270%Z))
               example_parser initial_world) with
  | Return (h, _, names), Return (h', _, names') => h' = h /\ names' = names
  | Raise e, Raise e' => e' = e
  | _, _ => False
  end.
Proof.
  exact (X13_legacy_port_is_local (tn3270_args "lu@host" None)
           (tn3270_args "lu@host" (Some 3270%Z)) example_parser initial_world
           eq_refl).
Defined.

End LegacyExtras.

(** ** Signals that arrive before the controller is stored *)

Module StartupFacts.

Import Signals Startup.

Section Early.

Variable c : Controller.

(** Once stored, always stored. *)
Lemma published_step (a : Action) (m : Machine) :
  published m = true -> published (step c a m) = true.
Proof.
  unfold step, published. intros H.
  destruct (fault m); [exact H|].
  destruct a; [exact H|].
  destruct (handlers m) as [|pc outer].
  - unfold main_step. destruct (main_pc m) eqn:Ep; try discriminate H.
    + destruct (CONTROLLER (world m)); cbn; [reflexivity | now rewrite Ep].
    + now rewrite Ep.
  - destruct pc; cbn; try exact H;
      destruct (CONTROLLER (world m)); cbn; exact H.
Qed.

Lemma published_run (schedule : list Action) (m : Machine) :
  published m = true -> published (run_schedule c schedule m) = true.
Proof.
  revert m. induction schedule as [|a schedule IH]; intros m H; [exact H|].
  cbn. apply IH. now apply published_step.
Qed.

Lemma unpublished_step (a : Action) (m : Machine) :
  unpublished c m ->
  published (step c a m) = false ->
  unpublished c (step c a m).
Proof.
  intros (Hfault & Hglobal & Hstops & Hhandlers & Hmain) Hafter.
  unfold step in *. rewrite Hfault in *.
  destruct a.
  - split; [|split; [|split; [|split]]]; cbn; try assumption.
    constructor; [now left | assumption].
  - destruct (handlers m) as [|pc outer] eqn:Eh.
    + unfold main_step in *.
      destruct Hmain as [Hpc|Hpc]; rewrite Hpc in *.
      * split; [|split; [|split; [|split]]]; cbn; rewrite ?Eh;
          try assumption; now right.
      * discriminate Hafter.
    + apply Forall_cons_iff in Hhandlers. destruct Hhandlers as [Hpc Houter].
      destruct Hpc as [-> | ->]; cbn [handler_step].
      * split; [|split; [|split; [|split]]]; cbn; try assumption.
        -- rewrite stop_count_app. cbn. lia.
        -- constructor; [now right | assumption].
      * rewrite Hglobal.
        split; [|split; [|split; [|split]]]; cbn; assumption.
Qed.

Lemma unpublished_run (schedule : list Action) (m : Machine) :
  unpublished c m ->
  published (run_schedule c schedule m) = false ->
  unpublished c (run_schedule c schedule m).
Proof.
  revert m. induction schedule as [|a schedule IH]; intros m Hm Hend; [exact Hm|].
  cbn in *. apply IH; [|exact Hend].
  apply unpublished_step; [exact Hm|].
  destruct (published (step c a m)) eqn:E; [|reflexivity].
  now rewrite (published_run schedule _ E) in Hend.
Qed.

Lemma run_schedule_app (first second : list Action) (m : Machine) :
  run_schedule c (first ++ second) m
  = run_schedule c second (run_schedule c first m).
Proof.
  revert m. induction first as [|a first IH]; intros m; [reflexivity|].
  cbn. apply IH.
Qed.

Lemma unpublished_boot : unpublished c boot.
Proof.
  split; [|split; [|split; [|split]]]; cbn; try reflexivity;
    [constructor | now left].
Qed.

End Early.

(** X14.  A termination request that is served before [main] has stored
    the controller is lost.  Whatever signals arrive up to then, and
    however their handlers nest, nothing is stopped, the global stays
    empty and nothing fails; and once these handlers have returned,
    [main] goes on to store the controller and to run it. *)
Theorem X14_early_signals_are_lost (c : Controller) (schedule : list Action) :
  published (run_schedule c schedule boot) = false ->
  stop_count (events (world (run_schedule c schedule boot))) = 0
  /\ CONTROLLER (world (run_schedule c schedule boot)) = None
  /\ fault (run_schedule c schedule boot) = None
  /\ (handlers (run_schedule c schedule boot) = [] ->
      let started := run_schedule c (schedule ++ [Tick; Tick; Tick]) boot in
      main_pc started = line_180_run c
      /\ CONTROLLER (world started) = Some c
      /\ In (Run c) (events (world started))
      /\ stop_count (events (world started)) = 0
      /\ fault started = None).
Proof.
  intros Hend.
  destruct (unpublished_run c schedule boot (unpublished_boot c) Hend)
    as (Hfault & Hglobal & Hstops & Hhandlers & Hmain).
  split; [exact Hstops | split; [exact Hglobal | split; [exact Hfault|]]].
  intros Hnone started. unfold started.
  rewrite run_schedule_app.
  destruct (run_schedule c schedule boot) as [[g ev] pc hs f].
  cbn in Hfault, Hglobal, Hstops, Hnone, Hmain. subst f g hs.
  destruct Hmain as [-> | ->]; cbn; rewrite ?stop_count_app; cbn;
    rewrite ?in_app_iff; cbn;
    (split; [reflexivity | split; [reflexivity | split; [tauto | split; [lia | reflexivity]]]]).
Qed.

Lemma X14_early_signals_are_lost_example :
  In (Run example_controller)
     (events (world (run_schedule example_controller
                       ([Deliver; Tick; Tick; Tick; Deliver; Tick; Tick]
                        ++ [Tick; Tick; Tick]) boot)))
  /\ stop_count
       (events (world (run_schedule example_controller
                         ([Deliver; Tick; Tick; Tick; Deliver; Tick; Tick]
                          ++ [Tick; Tick; Tick]) boot))) = 0.
Proof.
  destruct (X14_early_signals_are_lost example_controller
              [Deliver; Tick; Tick; Tick; Deliver; Tick; Tick] eq_refl)
    as (_ & _ & _ & Hstarted).
  destruct (Hstarted eq_refl) as (_ & _ & Hrun & Hstops & _).
  exact (conj Hrun Hstops).
Defined.

(** An activation that no signal interrupts does what one call of
    [_signal_handler] does: two steps when the global is empty, five
    when it holds a controller. *)
Lemma activation_is_signal_handler (c : Controller) (m : Machine)
    (outer : list HandlerPc) (number : Z) :
  fault m = None ->
  handlers m = line_129 :: outer ->
  let ticks := match CONTROLLER (world m) with
               | Some _ => [Tick; Tick; Tick; Tick; Tick]
               | None => [Tick; Tick]
               end in
  world (run_schedule c ticks m) = snd (_signal_handler number tt (world m))
  /\ handlers (run_schedule c ticks m) = outer
  /\ fault (run_schedule c ticks m) = None
  /\ main_pc (run_schedule c ticks m) = main_pc m.
Proof.
  intros Hfault Hhandlers ticks. unfold ticks.
  rewrite signal_handler_run.
  destruct m as [[g ev] pc hs f]. cbn in Hfault, Hhandlers. subst f hs.
  destruct g as [x|]; cbn; repeat split; unfold after; cbn;
    now rewrite <- ?app_assoc.
Qed.

End StartupFacts.
